(** * lightchain: the flat nearest-neighbour wrapper and the pooling aggregator

    A shallow embedding of
      - [src/nltkp/modules/indices/faiss/base.py]  (class [BaseFaissAnn]),
      - [src/lightchain/models/encoder/sentence/pooling/base.py]
        (class [BasePooling]),
    and the properties of the two classes.

    Python objects are modelled by what the two classes can observe of them:
    an instance is its attribute dictionary, a method is a computation in a
    state-and-exception monad over that dictionary, and a raised exception
    keeps every attribute assigned before the [raise]. *)

From Stdlib Require Import ZArith Lia.
From stdpp Require Import base option list sorting gmap strings.

Local Open Scope string_scope.
Local Open Scope nat_scope.

(** ** Scalars

    The arrays hold [float32] numbers.  Nothing below depends on how the
    arithmetic rounds, so the element type is an interface: the operations the
    numeric code uses, and (for ranking) a comparison. *)

Class Scalar (R : Type) := {
  rzero : R;
  radd : R → R → R;
  rsub : R → R → R;
  rmul : R → R → R;
  rdiv : R → R → R;
  rsqrt : R → R;
  rmax : R → R → R;
  rof_nat : nat → R;
  rhuge : R;
  rleb : R → R → bool
}.

(** The comparison of two numbers that are not NaN: total and transitive. *)
Class ScalarOrder (R : Type) `{Scalar R} : Prop := {
  rleb_total : ∀ x y : R, rleb x y = true ∨ rleb y x = true;
  rleb_trans : ∀ x y z : R, rleb x y = true → rleb y z = true → rleb x z = true
}.

(** Exact integers, used to run the definitions on concrete inputs. *)
#[export] Instance Z_Scalar : Scalar Z := {|
  rzero := 0%Z;
  radd := Z.add;
  rsub := Z.sub;
  rmul := Z.mul;
  rdiv := Z.div;
  rsqrt := Z.sqrt;
  rmax := Z.max;
  rof_nat := Z.of_nat;
  rhuge := (2 ^ 127)%Z;
  rleb := Z.leb
|}.

(** ** Exceptions and outcomes *)

Inductive exn :=
| TypeError (msg : string)
| ValueError (msg : string)
| AttributeError (msg : string)
| IndexError (msg : string)
| KeyError (key : string)
| RuntimeError (msg : string)
| AssertionError (msg : string)
| LibraryError (msg : string).

Inductive outcome (A : Type) :=
| Return (a : A)
| Raise (e : exn).
Arguments Return {A} a.
Arguments Raise {A} e.

Definition is_TypeError {A} (o : outcome A) : bool :=
  match o with Raise (TypeError _) => true | _ => false end.

Definition is_ValueError {A} (o : outcome A) : bool :=
  match o with Raise (ValueError _) => true | _ => false end.

(** ** numpy arrays: a shape and the elements in row-major order *)

Record ndarray (A : Type) := mk_ndarray { shape : list nat; data : list A }.
Arguments mk_ndarray {A} shape data.
Arguments shape {A} _.
Arguments data {A} _.

Definition ndim {A} (a : ndarray A) : nat := length (shape a).

Definition numel {A} (a : ndarray A) : nat := foldr Nat.mul 1 (shape a).

(** The array holds as many elements as its shape says. *)
Definition wf_ndarray {A} (a : ndarray A) : Prop := length (data a) = numel a.

(** [a.reshape(1, -1)]: one row holding every element (the unknown extent is
    the number of elements divided by the known extent 1). *)
Definition reshape_1_m1 {A} (a : ndarray A) : ndarray A :=
  mk_ndarray [1; numel a] (data a).

(** Row [i] of a row-major matrix of width [d]. *)
Definition row {A} (d i : nat) (xs : list A) : list A := take d (drop (i * d) xs).

Definition rows {A} (n d : nat) (xs : list A) : list (list A) :=
  (λ i, row d i xs) <$> seq 0 n.

(** ** The flat index of the search library *)

Module Faiss.
Section faiss.
Context {R : Type} `{Scalar R}.

Inductive MetricType := METRIC_L2 | METRIC_INNER_PRODUCT.

(** Modelled from the spec: the classes [IndexFlatL2] and [IndexFlatIP]
    come from the external flat-index library and are not under src/.  The
    spec describes them as a brute-force index (every query is compared with
    every stored vector) that ranks by ascending squared Euclidean distance
    for [L2] and by descending inner product for [IP], returns per query
    [n_neighbors] distances and indices, best first, and raises its own error
    on malformed shapes.  The index holds its dimension and the stored
    vectors, row-major.  The errors are those of the library's Python
    methods, which unpack [n, d = x.shape], assert [d == self.d] (and
    [k > 0] when searching) and convert [x] to [float32]. *)
Record IndexFlat := mk_IndexFlat {
  metric_type : MetricType;
  d : nat;
  ntotal : nat;
  xb : list R
}.

Definition IndexFlatL2 (dim : nat) : IndexFlat := mk_IndexFlat METRIC_L2 dim 0 [].
Definition IndexFlatIP (dim : nat) : IndexFlat := mk_IndexFlat METRIC_INNER_PRODUCT dim 0 [].

(** The arrays that reach the library: arrays of numbers, and arrays of
    dtype [object] of a given shape whose first element is an object that is
    no number ([None], a list, ...), named by its type. *)
Inductive array :=
| FloatArray (a : ndarray R)
| ObjectArray (dims : list nat) (elem_type : string).

Definition array_shape (x : array) : list nat :=
  match x with
  | FloatArray a => shape a
  | ObjectArray s _ => s
  end.

(** [n, d = x.shape] *)
Definition unpack_shape (x : array) : outcome (nat * nat) :=
  match array_shape x with
  | [] => Raise (ValueError "not enough values to unpack (expected 2, got 0)")
  | [_] => Raise (ValueError "not enough values to unpack (expected 2, got 1)")
  | [n; dim] => Return (n, dim)
  | _ => Raise (ValueError "too many values to unpack (expected 2)")
  end.

(** [np.ascontiguousarray(x, dtype='float32')]: numbers convert, the object
    does not. *)
Definition ascontiguousarray (x : array) : outcome (ndarray R) :=
  match x with
  | FloatArray a => Return a
  | ObjectArray _ t =>
      Raise (TypeError ("float() argument must be a string or a real number, not '"
                        ++ t ++ "'"))
  end.

(** Modelled from the spec: [index.add(x)] stores the rows of a matrix whose
    width is the index dimension. *)
Definition add (ix : IndexFlat) (x : array) : outcome IndexFlat :=
  match unpack_shape x with
  | Return (n, dim) =>
      if bool_decide (dim = d ix) then
        match ascontiguousarray x with
        | Return a =>
            Return (mk_IndexFlat (metric_type ix) (d ix) (ntotal ix + n) (xb ix ++ data a))
        | Raise e => Raise e
        end
      else Raise (AssertionError "")
  | Raise e => Raise e
  end.

Definition sum_list (xs : list R) : R := foldr radd rzero xs.

Definition fvec_L2sqr (q x : list R) : R :=
  sum_list (zip_with (λ a b, rmul (rsub a b) (rsub a b)) q x).

Definition fvec_inner_product (q x : list R) : R :=
  sum_list (zip_with rmul q x).

Definition score (m : MetricType) (q x : list R) : R :=
  match m with
  | METRIC_L2 => fvec_L2sqr q x
  | METRIC_INNER_PRODUCT => fvec_inner_product q x
  end.

(** [better m a b]: candidate [a] ranks no later than candidate [b]. *)
Definition better (m : MetricType) (a b : R * Z) : Prop :=
  match m with
  | METRIC_L2 => rleb a.1 b.1 = true
  | METRIC_INNER_PRODUCT => rleb b.1 a.1 = true
  end.

#[export] Instance better_dec m a b : Decision (better m a b).
Proof. destruct m; simpl; apply _. Defined.

(** The value reported with label [-1] when fewer than [k] vectors are stored. *)
Definition no_result (m : MetricType) : R * Z :=
  match m with
  | METRIC_L2 => (rhuge, (-1)%Z)
  | METRIC_INNER_PRODUCT => (rsub rzero rhuge, (-1)%Z)
  end.

Definition candidates (ix : IndexFlat) (q : list R) : list (R * Z) :=
  (λ i, (score (metric_type ix) q (row (d ix) i (xb ix)), Z.of_nat i)) <$> seq 0 (ntotal ix).

(** The [k] best candidates for one query vector, best first. *)
Definition knn (ix : IndexFlat) (k : nat) (q : list R) : list (R * Z) :=
  let ranked := merge_sort (better (metric_type ix)) (candidates ix q) in
  take k ranked ++ replicate (k - ntotal ix) (no_result (metric_type ix)).

(** Modelled from the spec: [index.search(x, k)] answers every row of the
    query matrix and returns two parallel arrays of shape [(n_queries, k)]. *)
Definition search (ix : IndexFlat) (x : array) (k : nat)
  : outcome (ndarray R * ndarray Z) :=
  match unpack_shape x with
  | Return (nq, dim) =>
      match ascontiguousarray x with
      | Return a =>
          if negb (bool_decide (dim = d ix)) then Raise (AssertionError "")
          else if bool_decide (k = 0) then Raise (AssertionError "")
          else
            let found := knn ix k <$> rows nq dim (data a) in
            Return (mk_ndarray [nq; k] (concat (fmap fst <$> found)),
                    mk_ndarray [nq; k] (concat (fmap snd <$> found)))
      | Raise e => Raise e
      end
  | Raise e => Raise e
  end.
End faiss.
Arguments IndexFlat R : clear implicits.
Arguments array R : clear implicits.
End Faiss.

(** ** [BaseFaissAnn]: the wrapper around the flat index *)

Module BaseFaissAnn.
Section wrapper.
Context {R : Type} `{Scalar R}.

(** The Python objects that reach the wrapper: the arguments of [_fit] and
    [query] and the values of the instance attributes. *)
Inductive value :=
| VNone
| VStr (s : string)
| VInt (z : Z)
| VNdarray (a : ndarray R)
| VNdarrayObject (dims : list nat) (elem_type : string)
| VTensor (requires_grad : bool) (a : ndarray R)
| VIndex (ix : Faiss.IndexFlat R)
| VObject (type_name : string).

(** [type(v).__name__] *)
Definition type_name (v : value) : string :=
  match v with
  | VNone => "NoneType"
  | VStr _ => "str"
  | VInt _ => "int"
  | VNdarray _ => "ndarray"
  | VNdarrayObject _ _ => "ndarray"
  | VTensor _ _ => "Tensor"
  | VIndex _ => "IndexFlat"
  | VObject n => n
  end.

(** [isinstance(v, ndarray)] and [isinstance(v, Tensor)] *)
Definition isinstance_ndarray (v : value) : bool :=
  match v with VNdarray _ | VNdarrayObject _ _ => true | _ => false end.

Definition isinstance_Tensor (v : value) : bool :=
  match v with VTensor _ _ => true | _ => false end.

(** [v is None] *)
Definition is_None (v : value) : bool :=
  match v with VNone => true | _ => false end.

(** [v == s] for a string literal [s] *)
Definition eq_str (v : value) (s : string) : bool :=
  match v with VStr s' => bool_decide (s' = s) | _ => false end.

(** The state a method runs in: the attribute dictionary of [self] and the
    records received by [LOGGER]. *)
Record world := mk_world {
  attrs : gmap string value;
  log : list (string * list value)
}.

(** A method body: it may change the state, and returns or raises; the
    state reached before a [raise] is kept. *)
Definition M (A : Type) : Type := world → world * outcome A.

Definition ret {A} (a : A) : M A := λ w, (w, Return a).
Definition raise {A} (e : exn) : M A := λ w, (w, Raise e).
Definition bind {A B} (c : M A) (k : A → M B) : M B :=
  λ w, match c w with
       | (w', Return a) => k a w'
       | (w', Raise e) => (w', Raise e)
       end.

(** [self.name]: an attribute that was never assigned is an [AttributeError]. *)
Definition getattr (name : string) : M value :=
  λ w, match attrs w !! name with
       | Some v => (w, Return v)
       | None => (w, Raise (AttributeError ("'BaseFaissAnn' object has no attribute '" ++ name ++ "'")))
       end.

(** [self.name = v] *)
Definition setattr (name : string) (v : value) : M unit :=
  λ w, (mk_world (<[name := v]> (attrs w)) (log w), Return tt).

(** [LOGGER.info(msg, *args)] *)
Definition LOGGER_info (msg : string) (args : list value) : M unit :=
  λ w, (mk_world (attrs w) (log w ++ [(msg, args)]), Return tt).

(** Turning an outcome of the library into the method's outcome. *)
Definition lift {A} (o : outcome A) : M A := λ w, (w, o).
End wrapper.

Arguments value R : clear implicits.
Arguments world R : clear implicits.
Arguments M R A : clear implicits.

Declare Scope py_scope.
Delimit Scope py_scope with py.
Notation "x <- c ;; k" := (bind c (λ x, k))
  (at level 100, c at next level, right associativity) : py_scope.
Notation "c ;; k" := (bind c (λ _, k))
  (at level 100, right associativity) : py_scope.

Section methods.
Context {R : Type} `{Scalar R}.
Local Open Scope py_scope.

(** [embeddings.shape[i]] *)
Definition shape_of (v : value R) : option (list nat) :=
  match v with
  | VNdarray a | VTensor _ a => Some (shape a)
  | VNdarrayObject s _ => Some s
  | _ => None
  end.

Definition shape_at (v : value R) (i : nat) : M R nat :=
  match shape_of v with
  | Some s =>
      match s !! i with
      | Some n => ret n
      | None => raise (IndexError "tuple index out of range")
      end
  | None => raise (AttributeError ("'" ++ type_name v ++ "' object has no attribute 'shape'"))
  end.

(** [embedding.ndim] *)
Definition ndim_of (v : value R) : M R nat :=
  match shape_of v with
  | Some s => ret (length s)
  | None => raise (AttributeError ("'" ++ type_name v ++ "' object has no attribute 'ndim'"))
  end.

(** [embedding.reshape(1, -1)] *)
Definition reshape (v : value R) : M R (value R) :=
  match v with
  | VNdarray a => ret (VNdarray (reshape_1_m1 a))
  | VNdarrayObject s t => ret (VNdarrayObject [1; foldr Nat.mul 1 s] t)
  | VTensor g a => ret (VTensor g (reshape_1_m1 a))
  | _ => raise (AttributeError ("'" ++ type_name v ++ "' object has no attribute 'reshape'"))
  end.

(** [embedding.cpu().numpy()]: torch refuses a tensor that requires grad. *)
Definition cpu_numpy (v : value R) : M R (value R) :=
  match v with
  | VTensor false a => ret (VNdarray a)
  | VTensor true _ =>
      raise (RuntimeError "Can't call numpy() on Tensor that requires grad.")
  | _ => raise (AttributeError ("'" ++ type_name v ++ "' object has no attribute 'cpu'"))
  end.

(** The argument of a library call.  Only arrays reach these calls: both
    methods refuse every other object before. *)
Definition as_array (v : value R) : option (Faiss.array R) :=
  match v with
  | VNdarray a => Some (Faiss.FloatArray a)
  | VNdarrayObject s t => Some (Faiss.ObjectArray s t)
  | _ => None
  end.

(** [self.index.add(embeddings)]: the index object held by [self] is
    updated in place. *)
Definition index_add (embeddings : value R) : M R unit :=
  index <- getattr "index" ;;
  match index with
  | VIndex ix =>
      match as_array embeddings with
      | Some x =>
          ix' <- lift (Faiss.add ix x) ;;
          setattr "index" (VIndex ix')
      | None =>
          raise (AttributeError ("'" ++ type_name embeddings
                                 ++ "' object has no attribute 'shape'"))
      end
  | _ => raise (AttributeError ("'" ++ type_name index ++ "' object has no attribute 'add'"))
  end.

(** [self.index.search(embedding, n_neighbors)] on the value read from
    [self.index] *)
Definition index_search (index embedding : value R) (n_neighbors : nat)
  : M R (ndarray R * ndarray Z) :=
  match index with
  | VIndex ix =>
      match as_array embedding with
      | Some x => lift (Faiss.search ix x n_neighbors)
      | None =>
          raise (AttributeError ("'" ++ type_name embedding
                                 ++ "' object has no attribute 'shape'"))
      end
  | _ => raise (AttributeError ("'" ++ type_name index ++ "' object has no attribute 'search'"))
  end.

(** [BaseFaissAnn.__init__].  [base] holds the attributes a new instance has
    after [super().__init__()] (assigned there, or defined on the base
    class): the class [BaseAnn] is not under src/, so they are a parameter.
    The two annotations [self.index: ...] and [self.embeddings: ...] carry no
    value and assign nothing. *)
Definition __init__ (base : gmap string (value R)) (index_type : string)
  : gmap string (value R) :=
  <["index_type" := VStr index_type]> base.

(** [BaseFaissAnn._fit] *)
Definition _fit (embeddings : value R) : M R unit :=
  LOGGER_info "Start fit BaseFaissAnn" [] ;;
  if negb (isinstance_ndarray embeddings) then
    raise (TypeError ("Embeddings must be an ndarray, got " ++ type_name embeddings))
  else
    setattr "embeddings" embeddings ;;
    d <- shape_at embeddings 1 ;;
    index_type <- getattr "index_type" ;;
    (if eq_str index_type "L2" then
       setattr "index" (VIndex (Faiss.IndexFlatL2 d))
     else
       index_type <- getattr "index_type" ;;
       if eq_str index_type "IP" then
         setattr "index" (VIndex (Faiss.IndexFlatIP d))
       else
         raise (ValueError "Invalid index type specified, use indexes as 'IP' or 'L2.")) ;;
    index_add embeddings ;;
    index_type <- getattr "index_type" ;;
    LOGGER_info "Fit faiss (%s) with shape dim: %s" [index_type; VInt (Z.of_nat d)].

(** [BaseFaissAnn.query].  [n_neighbors] is a count of results. *)
Definition query (embedding : value R) (n_neighbors : nat)
  : M R (ndarray R * ndarray Z) :=
  index <- getattr "index" ;;
  if is_None index then
    raise (ValueError "Index not initialized, please fit the model before querying.")
  else if negb (isinstance_ndarray embedding) then
    raise (TypeError "Query embedding must be an ndarray.")
  else
    embedding <- (if isinstance_Tensor embedding then cpu_numpy embedding
                  else ret embedding) ;;
    n <- ndim_of embedding ;;
    embedding <- (if bool_decide (n = 1) then reshape embedding else ret embedding) ;;
    LOGGER_info "Query embedding with number of neighbors: %s"
                [VInt (Z.of_nat n_neighbors)] ;;
    index <- getattr "index" ;;
    index_search index embedding n_neighbors.
End methods.

(** *** The states of a wrapper *)

Import Faiss.
Section state.
Context {R : Type} `{Scalar R}.

(** An attribute is unset when it was never assigned or holds [None]. *)
Definition unset (o : option (value R)) : Prop := o = None ∨ o = Some VNone.

(** The index holds exactly the rows of the matrix. *)
Definition index_of (a : ndarray R) (ix : IndexFlat R) : Prop :=
  ∃ n dim, shape a = [n; dim] ∧ d ix = dim ∧ ntotal ix = n ∧ xb ix = data a.

(** The state invariant of the wrapper: index handle and embedding matrix are
    both unset, or both set and the index was built from the matrix. *)
Definition state_invariant (w : world R) : Prop :=
  (unset (attrs w !! "index") ∧ unset (attrs w !! "embeddings"))
  ∨ (∃ ix a, attrs w !! "index" = Some (VIndex ix)
             ∧ attrs w !! "embeddings" = Some (VNdarray a)
             ∧ index_of a ix).

(** The flat index the wrapper builds over a matrix. *)
Definition flat_index (m : MetricType) (a : ndarray R) : IndexFlat R :=
  mk_IndexFlat m (default 0 (shape a !! 1)) (default 0 (shape a !! 0)) (data a).

(** What [query] hands to the search: a 1-D array as one row. *)
Definition query_argument (x : array R) : array R :=
  if bool_decide (length (array_shape x) = 1) then
    match x with
    | FloatArray a => FloatArray (reshape_1_m1 a)
    | ObjectArray s t => ObjectArray [1; foldr Nat.mul 1 s] t
    end
  else x.

(** The state after a successful [_fit(a)] from state [w]. *)
Definition fitted (m : MetricType) (index_type : string) (a : ndarray R) (w : world R)
  : world R :=
  mk_world
    (<["index" := VIndex (flat_index m a)]>
       (<["index" := VIndex (mk_IndexFlat m (default 0 (shape a !! 1)) 0 [])]>
          (<["embeddings" := VNdarray a]> (attrs w))))
    (log w ++ [("Start fit BaseFaissAnn", [])]
           ++ [("Fit faiss (%s) with shape dim: %s",
                [VStr index_type; VInt (Z.of_nat (default 0 (shape a !! 1)))])]).
End state.
End BaseFaissAnn.


(** ** [BasePooling]: the pooling aggregator *)

Module BasePooling.
Section heap.
Context {R : Type} `{Scalar R}.

(** [apply_pooling] receives references to a list and to a dictionary and
    hands the same references to every pooling function, which appends to
    the list in place.  The objects live in a heap, addressed by location. *)
Definition loc := positive.

Inductive feature :=
| FTensor (t : ndarray R)
| FMask (m : ndarray bool).

Inductive object :=
| OList (items : list (ndarray R))
| ODict (entries : gmap string feature)
| OTensor (t : ndarray R).

Definition object_type (o : object) : string :=
  match o with
  | OList _ => "list"
  | ODict _ => "dict"
  | OTensor _ => "Tensor"
  end.

Definition M (A : Type) : Type := gmap loc object → gmap loc object * outcome A.

Definition ret {A} (a : A) : M A := λ h, (h, Return a).
Definition raise {A} (e : exn) : M A := λ h, (h, Raise e).
Definition bind {A B} (c : M A) (k : A → M B) : M B :=
  λ h, match c h with
       | (h', Return a) => k a h'
       | (h', Raise e) => (h', Raise e)
       end.
Definition lift {A} (o : outcome A) : M A := λ h, (h, o).

(** [Callable[[list[Tensor], dict[str, Any]], None]] *)
Definition pooling_func : Type := loc → loc → M unit.

(** [features[key]] *)
Definition getitem (features : loc) (key : string) : M feature :=
  λ h, match h !! features with
       | Some (ODict entries) =>
           match entries !! key with
           | Some v => (h, Return v)
           | None => (h, Raise (KeyError key))
           end
       | Some o => (h, Raise (TypeError ("'" ++ object_type o ++ "' object is not subscriptable")))
       | None => (h, Raise (RuntimeError "dangling reference"))
       end.

(** [output_vectors.append(v)] *)
Definition append (output_vectors : loc) (v : ndarray R) : M unit :=
  λ h, match h !! output_vectors with
       | Some (OList items) => (<[output_vectors := OList (items ++ [v])]> h, Return tt)
       | Some o => (h, Raise (AttributeError ("'" ++ object_type o ++ "' object has no attribute 'append'")))
       | None => (h, Raise (RuntimeError "dangling reference"))
       end.

(** The instance: the two attributes assigned by the constructor. *)
Record BasePooling := mk_BasePooling {
  word_embedding_dimension : Z;
  pooling_functions : list pooling_func
}.
End heap.

Arguments feature R : clear implicits.
Arguments object R : clear implicits.
Arguments M R A : clear implicits.
Arguments pooling_func R : clear implicits.
Arguments BasePooling R : clear implicits.

Declare Scope pool_scope.
Delimit Scope pool_scope with pool.
Notation "x <- c ;; k" := (bind c (λ x, k))
  (at level 100, c at next level, right associativity) : pool_scope.
Notation "c ;; k" := (bind c (λ _, k))
  (at level 100, right associativity) : pool_scope.

(** *** The pooling functions of the module [func] *)

Module func.
Section strategies.
Context {R : Type} `{Scalar R}.
Local Open Scope pool_scope.

(** Modelled from the spec: the dictionary [pooling_funcs] and its five
    functions live in the module [.func], which is not under src/.  The spec
    gives each strategy as a reduction of the token batch (tokens × dimension)
    under the mask found in the feature bag; a malformed shape is an error of
    the numeric operation.  [apply_pooling] passes a pooling function the
    output list and the feature bag only, so the token batch is read from the
    bag as well, under the key "token_embeddings". *)
Definition token_rows (te : ndarray R) : outcome (nat * list (list R)) :=
  match shape te with
  | [t; dim] =>
      if bool_decide (length (data te) = t * dim) then Return (dim, rows t dim (data te))
      else Raise (LibraryError "token_embeddings: size mismatch")
  | _ => Raise (LibraryError "token_embeddings: expected tokens x dimension")
  end.

(** The mask, one flag per token. *)
Definition token_mask (t : nat) (mask : ndarray bool) : outcome (list bool) :=
  if bool_decide ((ndim mask = 1 ∨ ndim mask = 2) ∧ numel mask = t ∧ length (data mask) = t)
  then Return (data mask)
  else Raise (LibraryError "attention_mask: size mismatch")%string.

Definition vadd (x y : list R) : list R := zip_with radd x y.
Definition vscale (c : R) (x : list R) : list R := rmul c <$> x.
Definition vdiv (x : list R) (c : R) : list R := (λ a, rdiv a c) <$> x.
Definition vsum (dim : nat) (xs : list (list R)) : list R :=
  foldr vadd (replicate dim rzero) xs.

(** The rows of the valid tokens, with their 1-based positions. *)
Fixpoint valid_rows_from (pos : nat) (mask : list bool) (rs : list (list R))
  : list (nat * list R) :=
  match mask, rs with
  | valid :: mask', r :: rs' =>
      (if valid then [(pos, r)] else []) ++ valid_rows_from (S pos) mask' rs'
  | _, _ => []
  end.

Definition valid_rows : list bool → list (list R) → list (nat * list R) :=
  valid_rows_from 1.

(** CLS: the first token's embedding, unchanged. *)
Definition cls (te : ndarray R) : outcome (ndarray R) :=
  match token_rows te with
  | Return (dim, r :: _) => Return (mk_ndarray [dim] r)
  | Return (_, []) => Raise (IndexError "index 0 is out of bounds for dimension 0 with size 0")
  | Raise e => Raise e
  end.

(** Max: padding rows are replaced by a very negative sentinel before the
    element-wise maximum. *)
Definition max_over (te : ndarray R) (mask : ndarray bool) : outcome (ndarray R) :=
  match token_rows te with
  | Return (dim, rs) =>
      match token_mask (length rs) mask with
      | Return flags =>
          let masked :=
            zip_with (λ (valid : bool) r,
                        if valid then r else replicate dim (rsub rzero rhuge)) flags rs in
          match masked with
          | r :: rest => Return (mk_ndarray [dim] (foldl (zip_with rmax) r rest))
          | [] => Raise (LibraryError "max(): cannot reduce over an empty dimension")
          end
      | Raise e => Raise e
      end
  | Raise e => Raise e
  end.

(** The three means share the sum over the valid tokens and differ in the
    weight of a token and in the divisor, floored at 1. *)
Definition mean_with (weight : nat → R) (divisor : list nat → R)
    (te : ndarray R) (mask : ndarray bool) : outcome (ndarray R) :=
  match token_rows te with
  | Return (dim, rs) =>
      match token_mask (length rs) mask with
      | Return flags =>
          let valid := valid_rows flags rs in
          let total := vsum dim ((λ '(pos, r), vscale (weight pos) r) <$> valid) in
          Return (mk_ndarray [dim] (vdiv total (divisor (fst <$> valid))))
      | Raise e => Raise e
      end
  | Raise e => Raise e
  end.

Definition floor1 (n : nat) : nat := Nat.max n 1.

Definition mean : ndarray R → ndarray bool → outcome (ndarray R) :=
  mean_with (λ _, rof_nat 1) (λ ps, rof_nat (floor1 (length ps))).

Definition mean_sqrt_len : ndarray R → ndarray bool → outcome (ndarray R) :=
  mean_with (λ _, rof_nat 1) (λ ps, rsqrt (rof_nat (floor1 (length ps)))).

Definition weighted_mean : ndarray R → ndarray bool → outcome (ndarray R) :=
  mean_with rof_nat (λ ps, rof_nat (floor1 (foldr Nat.add 0 ps))).

(** A pooling function: read the batch and the mask from the bag, reduce,
    append the pooled vector to the output list. *)
Definition get_tensor (features : loc) (key : string) : M R (ndarray R) :=
  v <- getitem features key ;;
  match v with
  | FTensor t => ret t
  | FMask _ => raise (LibraryError "expected a float tensor")
  end.

Definition get_mask (features : loc) (key : string) : M R (ndarray bool) :=
  v <- getitem features key ;;
  match v with
  | FMask m => ret m
  | FTensor _ => raise (LibraryError "expected a mask")
  end.

Definition cls_token : pooling_func R := λ output_vectors features,
  te <- get_tensor features "token_embeddings" ;;
  v <- lift (cls te) ;;
  append output_vectors v.

Definition masked (reduce : ndarray R → ndarray bool → outcome (ndarray R))
  : pooling_func R := λ output_vectors features,
  te <- get_tensor features "token_embeddings" ;;
  mask <- get_mask features "attention_mask" ;;
  v <- lift (reduce te mask) ;;
  append output_vectors v.

Definition max_tokens : pooling_func R := masked max_over.
Definition mean_tokens : pooling_func R := masked mean.
Definition mean_sqrt_len_tokens : pooling_func R := masked mean_sqrt_len.
Definition weighted_mean_tokens : pooling_func R := masked weighted_mean.

(** The registry, in registration order. *)
Definition pooling_funcs : list (string * pooling_func R) :=
  [ ("cls_token", cls_token);
    ("max_tokens", max_tokens);
    ("mean_tokens", mean_tokens);
    ("mean_sqrt_len_tokens", mean_sqrt_len_tokens);
    ("weighted_mean_tokens", weighted_mean_tokens) ].
End strategies.
End func.

Section methods.
Context {R : Type} `{Scalar R}.
Local Open Scope pool_scope.

(** [BasePooling.__init__].  [pooling_funcs] is the registry imported from
    [.func], an ordered dictionary; [pooling_modes] are the keyword
    arguments. *)
Definition __init__ (pooling_funcs : list (string * pooling_func R))
    (word_embedding_dimension : Z) (pooling_modes : gmap string bool)
  : BasePooling R :=
  mk_BasePooling word_embedding_dimension
    (foldl (λ fs '(mode, func),
              if default false (pooling_modes !! mode) then (fs ++ [func])%list else fs)
           [] pooling_funcs).

(** [for func in fs: func(output_vectors, features)] *)
Fixpoint for_each (fs : list (pooling_func R)) (output_vectors features : loc)
  : M R unit :=
  match fs with
  | [] => ret tt
  | func :: fs' => func output_vectors features ;; for_each fs' output_vectors features
  end.

(** [BasePooling.apply_pooling] *)
Definition apply_pooling (self : BasePooling R) (output_vectors features : loc)
  : M R loc :=
  for_each (pooling_functions self) output_vectors features ;;
  ret output_vectors.

(** A call of [self.apply_pooling] with the positional arguments [args]: Python binds the positional
    arguments to the two parameters [output_vectors] and [features] and
    refuses any other number of them. *)
Definition call_apply_pooling (self : BasePooling R) (args : list loc) : M R loc :=
  match args with
  | [output_vectors; features] => apply_pooling self output_vectors features
  | [] | [_] => raise (TypeError "apply_pooling() missing required positional arguments")
  | _ => raise (TypeError "apply_pooling() takes 3 positional arguments but more were given")
  end.
End methods.

(** *** What a call of [apply_pooling] may change *)

Section spec.
Context {R : Type} `{Scalar R}.

(** The reduction behind each entry of the registry. *)
Definition reducers : list (string * (ndarray R → ndarray bool → outcome (ndarray R))) :=
  [ ("cls_token", λ te _, func.cls te);
    ("max_tokens", func.max_over);
    ("mean_tokens", func.mean);
    ("mean_sqrt_len_tokens", func.mean_sqrt_len);
    ("weighted_mean_tokens", func.weighted_mean) ].

(** The entries of a registry whose flag is set, in registry order. *)
Definition active {A} (pooling_modes : gmap string bool) (table : list (string * A))
  : list A :=
  (filter (λ p, default false (pooling_modes !! p.1) = true) table).*2.

(** A batch of [t >= 1] tokens of width [dim] with a mask of [t] flags. *)
Definition batch (t dim : nat) (te : ndarray R) (mask : ndarray bool) : Prop :=
  shape te = [t; dim] ∧ length (data te) = t * dim ∧ 1 ≤ t
  ∧ (ndim mask = 1 ∨ ndim mask = 2) ∧ numel mask = t ∧ length (data mask) = t.

(** A feature bag holding the batch. *)
Definition bag (te : ndarray R) (mask : ndarray bool) (entries : gmap string (feature R))
  : Prop :=
  entries !! "token_embeddings" = Some (FTensor te)
  ∧ entries !! "attention_mask" = Some (FMask mask).

(** From heap [h] to heap [h'] nothing changed but the list at [out], which
    kept its items and received [vs] at its end. *)
Definition only_appends (out : loc) (h h' : gmap loc (object R)) : Prop :=
  (∀ l, l ≠ out → h' !! l = h !! l)
  ∧ ∃ vs, h' !! out = match h !! out with
                      | Some (OList items) => Some (OList (items ++ vs))
                      | o => o
                      end.
End spec.
End BasePooling.

(** ** Concrete inputs, over exact integers *)

Module Examples.
(** Three stored vectors of dimension two, and a query vector. *)
Definition matrix : ndarray Z := mk_ndarray [3; 2] [0; 0; 3; 4; 1; 1]%Z.
Definition vector : ndarray Z := mk_ndarray [2] [1; 1]%Z.

(** A new wrapper whose base class assigns nothing. *)
Definition fresh (index_type : string) : BaseFaissAnn.world Z :=
  BaseFaissAnn.mk_world (BaseFaissAnn.__init__ ∅ index_type) [].

(** The wrapper after [_fit(matrix)]. *)
Definition fit_on_matrix (index_type : string) : BaseFaissAnn.world Z :=
  (BaseFaissAnn._fit (BaseFaissAnn.VNdarray matrix) (fresh index_type)).1.

(** Two tokens of width two, both valid. *)
Definition tokens : ndarray Z := mk_ndarray [2; 2] [1; 2; 3; 4]%Z.
Definition mask : ndarray bool := mk_ndarray [2] [true; true].

Definition entries : gmap string (BasePooling.feature Z) :=
  <["token_embeddings" := BasePooling.FTensor tokens]>
    (<["attention_mask" := BasePooling.FMask mask]> ∅).

(** A heap with an empty output list at 1, the feature bag at 2 and the
    token batch as an object of its own at 3. *)
Definition heap : gmap BasePooling.loc (BasePooling.object Z) :=
  <[1%positive := BasePooling.OList []]>
    (<[2%positive := BasePooling.ODict entries]>
       (<[3%positive := BasePooling.OTensor tokens]> ∅)).

(** An aggregator configured for dimension 768 with the CLS strategy and the
    mean strategy active. *)
Definition pooling : BasePooling.BasePooling Z :=
  BasePooling.__init__ BasePooling.func.pooling_funcs 768
    (<["cls_token" := true]> (<["mean_tokens" := true]> ∅)).
End Examples.


(** * Properties of [BaseFaissAnn] *)

Module FaissAnnSpec.
Import Faiss BaseFaissAnn.

Section fit.
Context {R : Type} `{Scalar R}.

Lemma fit_not_ndarray (w : world R) (v : value R) :
  isinstance_ndarray v = false →
  _fit v w = (mk_world (attrs w) (log w ++ [("Start fit BaseFaissAnn", [])]),
              Raise (TypeError ("Embeddings must be an ndarray, got " ++ type_name v))).
Proof.
  intros Hv. unfold _fit, bind, LOGGER_info. simpl. by rewrite Hv.
Qed.

Lemma as_array_Some (v : value R) (x : array R) :
  as_array v = Some x →
  isinstance_ndarray v = true ∧ shape_of v = Some (array_shape x).
Proof. destruct v; simpl; intros ?; by simplify_eq. Qed.

Lemma isinstance_as_array (v : value R) :
  isinstance_ndarray v = true → ∃ x, as_array v = Some x.
Proof. destruct v; simpl; intros ?; simplify_eq; eauto. Qed.

(** [_fit] on an array, path by path. *)
Lemma fit_array (w : world R) (v : value R) (x : array R) :
  as_array v = Some x →
  _fit v w
  = let w1 := mk_world (<["embeddings" := v]> (attrs w))
                       (log w ++ [("Start fit BaseFaissAnn", [])]) in
    match array_shape x !! 1 with
    | None => (w1, Raise (IndexError "tuple index out of range"))
    | Some dim =>
        match attrs w !! "index_type" with
        | None =>
            (w1, Raise (AttributeError
                          "'BaseFaissAnn' object has no attribute 'index_type'"))
        | Some it =>
            if eq_str it "L2" || eq_str it "IP" then
              let ix0 := if eq_str it "L2" then IndexFlatL2 dim else IndexFlatIP dim in
              let w2 := mk_world (<["index" := VIndex ix0]> (attrs w1)) (log w1) in
              match add ix0 x with
              | Return ix' =>
                  (mk_world (<["index" := VIndex ix']> (attrs w2))
                     (log w1 ++ [("Fit faiss (%s) with shape dim: %s",
                                  [it; VInt (Z.of_nat dim)])]),
                   Return tt)
              | Raise e => (w2, Raise e)
              end
            else
              (w1, Raise (ValueError
                            "Invalid index type specified, use indexes as 'IP' or 'L2."))
        end
    end.
Proof.
  intros Hx. destruct (as_array_Some v x Hx) as [Hv Hs].
  unfold _fit, bind, LOGGER_info, setattr, shape_at, getattr, ret, raise. simpl.
  rewrite Hv, Hs. simpl.
  destruct (array_shape x !! 1) as [dim|]; simpl; [|done].
  rewrite lookup_insert_ne by done.
  destruct (attrs w !! "index_type") as [it|] eqn:Hit; simpl; [|done].
  destruct (eq_str it "L2") eqn:HL2; simpl.
  - unfold index_add, bind, getattr, lift, setattr. simpl.
    rewrite lookup_insert_eq, Hx. simpl.
    destruct (add (IndexFlatL2 dim) x) as [ix'|e]; simpl; [|done].
    rewrite !lookup_insert_ne by done. by rewrite Hit.
  - rewrite lookup_insert_ne by done. rewrite Hit. simpl.
    destruct (eq_str it "IP") eqn:HIP; simpl; [|done].
    unfold index_add, bind, getattr, lift, setattr. simpl.
    rewrite lookup_insert_eq, Hx. simpl.
    destruct (add (IndexFlatIP dim) x) as [ix'|e]; simpl; [|done].
    rewrite !lookup_insert_ne by done. by rewrite Hit.
Qed.

Lemma fit_invalid_metric (w : world R) (m : string) (a : ndarray R) (n dim : nat) :
  attrs w !! "index_type" = Some (VStr m) →
  m ≠ "L2" → m ≠ "IP" →
  shape a = [n; dim] →
  _fit (VNdarray a) w
  = (mk_world (<["embeddings" := VNdarray a]> (attrs w))
              (log w ++ [("Start fit BaseFaissAnn", [])]),
     Raise (ValueError "Invalid index type specified, use indexes as 'IP' or 'L2.")).
Proof.
  intros Hm HL2 HIP Hs.
  rewrite (fit_array w (VNdarray a) (FloatArray a)) by done. simpl.
  rewrite Hs, Hm. simpl. by rewrite !bool_decide_eq_false_2 by done.
Qed.

Lemma fit_valid (w : world R) (m : string) (mt : MetricType) (a : ndarray R) (n dim : nat) :
  attrs w !! "index_type" = Some (VStr m) →
  (m = "L2" ∧ mt = METRIC_L2) ∨ (m = "IP" ∧ mt = METRIC_INNER_PRODUCT) →
  shape a = [n; dim] →
  _fit (VNdarray a) w = (fitted mt m a w, Return tt).
Proof.
  intros Hm Hmt Hs.
  rewrite (fit_array w (VNdarray a) (FloatArray a)) by done. simpl.
  rewrite Hs, Hm. simpl. unfold fitted, flat_index. rewrite Hs. simpl.
  destruct Hmt as [[-> ->]|[-> ->]]; simpl; unfold add, unpack_shape; simpl;
    rewrite Hs; simpl; rewrite bool_decide_eq_true_2 by done; simpl;
    by rewrite <- app_assoc.
Qed.

Lemma add_float_not_TypeError (ix : IndexFlat R) (a : ndarray R) :
  is_TypeError (add ix (FloatArray a)) = false.
Proof.
  unfold add, unpack_shape. simpl.
  destruct (shape a) as [|n [|dim [|? ?]]]; simpl; try done.
  by case_bool_decide.
Qed.

Lemma fit_ndarray_not_TypeError (w : world R) (a : ndarray R) :
  is_TypeError (_fit (VNdarray a) w).2 = false.
Proof.
  rewrite (fit_array w (VNdarray a) (FloatArray a)) by done. simpl.
  destruct (shape a !! 1) as [dim|]; simpl; [|done].
  destruct (attrs w !! "index_type") as [it|]; simpl; [|done].
  destruct (eq_str it "L2" || eq_str it "IP"); simpl; [|done].
  pose proof (add_float_not_TypeError
                (if eq_str it "L2" then IndexFlatL2 dim else IndexFlatIP dim) a) as Hadd.
  by destruct (add _ (FloatArray a)).
Qed.

Lemma fit_valid_invariant (w : world R) (m : string) (mt : MetricType)
    (a : ndarray R) (n dim : nat) :
  shape a = [n; dim] → state_invariant (fitted mt m a w).
Proof.
  intros Hs. right. exists (flat_index mt a), a. simpl.
  rewrite lookup_insert_eq. rewrite !lookup_insert_ne by done. rewrite lookup_insert_eq.
  split; [done|split; [done|]].
  exists n, dim. unfold flat_index. by rewrite Hs.
Qed.
End fit.

Section query.
Context {R : Type} `{Scalar R}.

Lemma query_index_unbound (w : world R) (v : value R) (k : nat) :
  attrs w !! "index" = None →
  query v k w
  = (w, Raise (AttributeError "'BaseFaissAnn' object has no attribute 'index'")).
Proof. intros Hix. unfold query, bind, getattr. by rewrite Hix. Qed.

Lemma query_index_None (w : world R) (v : value R) (k : nat) :
  attrs w !! "index" = Some VNone →
  query v k w
  = (w, Raise (ValueError "Index not initialized, please fit the model before querying.")).
Proof. intros Hix. unfold query, bind, getattr. by rewrite Hix. Qed.

Lemma query_not_ndarray (w : world R) (index v : value R) (k : nat) :
  attrs w !! "index" = Some index →
  is_None index = false →
  isinstance_ndarray v = false →
  query v k w = (w, Raise (TypeError "Query embedding must be an ndarray.")).
Proof.
  intros Hix Hnone Hv. unfold query, bind, getattr. rewrite Hix. simpl.
  by rewrite Hnone, Hv.
Qed.

(** [query] on an array, once [index] is set. *)
Lemma query_array (w : world R) (index v : value R) (x : array R) (k : nat) :
  attrs w !! "index" = Some index →
  is_None index = false →
  as_array v = Some x →
  query v k w
  = (mk_world (attrs w)
       (log w ++ [("Query embedding with number of neighbors: %s", [VInt (Z.of_nat k)])]),
     match index with
     | VIndex ix => search ix (query_argument x) k
     | _ => Raise (AttributeError
                     ("'" ++ type_name index ++ "' object has no attribute 'search'"))
     end).
Proof.
  intros Hix Hnone Hx.
  unfold query, bind, getattr, ndim_of, reshape, ret, raise, LOGGER_info, query_argument,
    index_search, lift.
  rewrite Hix. simpl. rewrite Hnone. simpl.
  destruct v; simpl in Hx; simplify_eq; simpl.
  - unfold ndim. case_bool_decide; simpl; rewrite Hix; by destruct index.
  - case_bool_decide; simpl; rewrite Hix; by destruct index.
Qed.

Lemma query_vector (w : world R) (ix : IndexFlat R) (q : ndarray R) (dim k : nat) :
  attrs w !! "index" = Some (VIndex ix) →
  shape q = [dim] →
  query (VNdarray q) k w
  = (mk_world (attrs w)
       (log w ++ [("Query embedding with number of neighbors: %s", [VInt (Z.of_nat k)])]),
     search ix (FloatArray (reshape_1_m1 q)) k).
Proof.
  intros Hix Hs.
  rewrite (query_array w (VIndex ix) (VNdarray q) (FloatArray q)) by done.
  unfold query_argument. simpl. by rewrite Hs.
Qed.

Lemma query_keeps_attrs (w : world R) (v : value R) (k : nat) :
  attrs (query v k w).1 = attrs w.
Proof.
  destruct (attrs w !! "index") as [index|] eqn:Hix;
    [|by rewrite query_index_unbound].
  destruct (is_None index) eqn:Hnone.
  { destruct index; try discriminate. by rewrite query_index_None. }
  destruct (isinstance_ndarray v) eqn:Hv;
    [|by rewrite (query_not_ndarray w index v k)].
  destruct (isinstance_as_array v Hv) as [x Hx].
  by rewrite (query_array w index v x k).
Qed.
End query.

Section search.
Context {R : Type} `{Scalar R}.

Lemma knn_length (ix : IndexFlat R) (k : nat) (q : list R) : length (knn ix k q) = k.
Proof.
  unfold knn. rewrite length_app, length_take, length_replicate.
  rewrite (Permutation_length (merge_sort_Permutation _ _)).
  unfold candidates. rewrite length_fmap, length_seq. lia.
Qed.

Lemma search_one (ix : IndexFlat R) (q : list R) (k : nat) :
  length q = d ix → k ≠ 0 →
  search ix (FloatArray (mk_ndarray [1; d ix] q)) k
  = Return (mk_ndarray [1; k] (fst <$> knn ix k q), mk_ndarray [1; k] (snd <$> knn ix k q)).
Proof.
  intros Hq Hk. unfold search, unpack_shape. simpl.
  rewrite bool_decide_eq_true_2 by done. simpl.
  rewrite bool_decide_eq_false_2 by done.
  unfold rows, row. simpl. rewrite drop_0, take_ge by lia.
  by rewrite !app_nil_r.
Qed.

Lemma StronglySorted_lookup {A} (Rel : relation A) (l : list A) (i j : nat) (x y : A) :
  StronglySorted Rel l → i < j → l !! i = Some x → l !! j = Some y → Rel x y.
Proof.
  intros Hl. revert i j. induction Hl as [|a l Hl IH Ha]; intros i j Hij Hi Hj.
  - done.
  - destruct j as [|j]; [lia|]. simpl in Hj. destruct i as [|i]; simpl in Hi.
    + simplify_eq. rewrite Forall_forall in Ha. apply Ha.
      by eapply list_elem_of_lookup_2.
    + eapply (IH i j); [lia|done..].
Qed.

(** With at most as many results asked as vectors stored, the results are
    the first [k] of the ranking. *)
Lemma knn_take (ix : IndexFlat R) (k : nat) (q : list R) :
  k ≤ ntotal ix →
  knn ix k q = take k (merge_sort (better (metric_type ix)) (candidates ix q)).
Proof.
  intros Hk. unfold knn. replace (k - ntotal ix) with 0 by lia.
  simpl. by rewrite app_nil_r.
Qed.

Lemma ranked_elem (ix : IndexFlat R) (q : list R) (c : R * Z) :
  c ∈ merge_sort (better (metric_type ix)) (candidates ix q) ↔
  ∃ j, j < ntotal ix
       ∧ c = (score (metric_type ix) q (row (d ix) j (xb ix)), Z.of_nat j).
Proof.
  rewrite merge_sort_Permutation. unfold candidates. rewrite list_elem_of_fmap.
  split.
  - intros (j & -> & Hj). apply elem_of_seq in Hj. exists j. split; [lia|done].
  - intros (j & Hj & ->). exists j. split; [done|]. apply elem_of_seq. lia.
Qed.

Lemma knn_elem (ix : IndexFlat R) (k : nat) (q : list R) (c : R * Z) :
  k ≤ ntotal ix → c ∈ knn ix k q →
  ∃ j, j < ntotal ix
       ∧ c = (score (metric_type ix) q (row (d ix) j (xb ix)), Z.of_nat j).
Proof.
  intros Hk Hc. rewrite knn_take in Hc by done.
  apply ranked_elem. by eapply subseteq_take.
Qed.

Lemma knn_NoDup (ix : IndexFlat R) (k : nat) (q : list R) :
  k ≤ ntotal ix → NoDup (snd <$> knn ix k q).
Proof.
  intros Hk. rewrite knn_take by done.
  assert (NoDup (snd <$> merge_sort (better (metric_type ix)) (candidates ix q))) as Hnd.
  { rewrite merge_sort_Permutation. unfold candidates.
    rewrite <- list_fmap_compose.
    apply NoDup_fmap_2; [|apply NoDup_seq].
    intros i j Hij. simpl in Hij. lia. }
  rewrite <- (take_drop k (merge_sort _ _)), fmap_app in Hnd.
  by apply NoDup_app in Hnd as [Hnd _].
Qed.
End search.

Section ranking.
Context {R : Type} `{Scalar R} `{!ScalarOrder R}.

#[local] Instance better_total (m : MetricType) : Total (better (R:=R) m).
Proof. intros a b. destruct m; simpl; apply rleb_total. Qed.

#[local] Instance better_trans (m : MetricType) : Transitive (better (R:=R) m).
Proof.
  intros a b c. destruct m; simpl; intros Hab Hbc.
  - by eapply rleb_trans.
  - by eapply rleb_trans.
Qed.

Lemma knn_ranked (ix : IndexFlat R) (k : nat) (q : list R) (i j : nat) (a b : R * Z) :
  k ≤ ntotal ix → i ≤ j →
  knn ix k q !! i = Some a → knn ix k q !! j = Some b →
  better (metric_type ix) a b.
Proof.
  intros Hk Hij Hi Hj. rewrite knn_take in Hi, Hj by done.
  destruct (decide (i = j)) as [->|Hne].
  - simplify_eq. by destruct (total (better (metric_type ix)) a a).
  - eapply (StronglySorted_lookup _ _ i j); [|lia|done..].
    eapply StronglySorted_app_1_l. rewrite take_drop.
    apply StronglySorted_merge_sort; apply _.
Qed.

(** A stored vector that is not among the results ranks no earlier than any
    result. *)
Lemma knn_best (ix : IndexFlat R) (k : nat) (q : list R) (j : nat) (c : R * Z) :
  k ≤ ntotal ix → j < ntotal ix →
  Z.of_nat j ∉ snd <$> knn ix k q →
  c ∈ knn ix k q →
  better (metric_type ix) c
    (score (metric_type ix) q (row (d ix) j (xb ix)), Z.of_nat j).
Proof.
  intros Hk Hj Hout Hc. rewrite knn_take in Hout, Hc by done.
  set (l := merge_sort (better (metric_type ix)) (candidates ix q)) in *.
  set (cj := (score (metric_type ix) q (row (d ix) j (xb ix)), Z.of_nat j)).
  assert (cj ∈ l) as Hin by (apply ranked_elem; eauto).
  rewrite <- (take_drop k l) in Hin. apply elem_of_app in Hin as [Hin|Hin].
  - exfalso. apply Hout. by apply (list_elem_of_fmap_2 snd) in Hin.
  - eapply (StronglySorted_app_1_elem_of _ (take k l) (drop k l)); [|done..].
    rewrite take_drop. apply StronglySorted_merge_sort; apply _.
Qed.
End ranking.

(** ** The claims on [BaseFaissAnn] *)

Section claims.
Context {R : Type} `{Scalar R}.

(** C1 (the code departs from it): a wrapper on which fit was never called
    should answer [query] with the state error, a [ValueError].  The
    constructor never assigns [index], so when the base class does not
    assign it either, reading [self.index] raises an [AttributeError] before
    the test [is None] is reached, for every embedding and neighbour count;
    no [ValueError] is raised and the state is untouched. *)
Theorem query_before_fit_AttributeError (base : gmap string (value R))
    (index_type : string) (lg : list (string * list (value R)))
    (embedding : value R) (n_neighbors : nat) :
  base !! "index" = None →
  query embedding n_neighbors (mk_world (__init__ base index_type) lg)
  = (mk_world (__init__ base index_type) lg,
     Raise (AttributeError "'BaseFaissAnn' object has no attribute 'index'"))
  ∧ is_ValueError
      (query embedding n_neighbors (mk_world (__init__ base index_type) lg)).2 = false.
Proof.
  intros Hbase.
  rewrite query_index_unbound; [done|].
  unfold __init__. simpl. by rewrite lookup_insert_ne.
Qed.

(** C2 (the code departs from it): [query] should convert a tensor and
    search.  On every wrapper whose index is set, every tensor is refused by
    the test [isinstance(embedding, ndarray)], which precedes the conversion:
    the call raises the type error and changes nothing. *)
Theorem query_tensor_TypeError (w : world R) (index : value R)
    (requires_grad : bool) (t : ndarray R) (n_neighbors : nat) :
  attrs w !! "index" = Some index →
  is_None index = false →
  query (VTensor requires_grad t) n_neighbors w
  = (w, Raise (TypeError "Query embedding must be an ndarray.")).
Proof. intros Hix Hnone. by eapply query_not_ndarray. Qed.

(** C3 (the code departs from it): index handle and embedding matrix should
    be both unset or both set consistently after every call.  A fresh wrapper
    built with a metric other than "L2" and "IP" satisfies the invariant; its
    [_fit] on a matrix raises the configuration error after [embeddings] was
    assigned and before [index] is, and the state left behind breaks the
    invariant. *)
Theorem fit_invalid_metric_breaks_invariant (base : gmap string (value R))
    (index_type : string) (lg : list (string * list (value R)))
    (a : ndarray R) (n dim : nat) :
  base !! "index" = None → base !! "embeddings" = None →
  index_type ≠ "L2" → index_type ≠ "IP" →
  shape a = [n; dim] →
  state_invariant (mk_world (__init__ base index_type) lg)
  ∧ (_fit (VNdarray a) (mk_world (__init__ base index_type) lg)).2
    = Raise (ValueError "Invalid index type specified, use indexes as 'IP' or 'L2.")
  ∧ attrs (_fit (VNdarray a) (mk_world (__init__ base index_type) lg)).1 !! "embeddings"
    = Some (VNdarray a)
  ∧ attrs (_fit (VNdarray a) (mk_world (__init__ base index_type) lg)).1 !! "index" = None
  ∧ ¬ state_invariant (_fit (VNdarray a) (mk_world (__init__ base index_type) lg)).1.
Proof.
  intros Hix Hemb HL2 HIP Hs.
  assert (attrs (mk_world (__init__ base index_type) lg) !! "index_type"
          = Some (VStr index_type)) as Hty by apply lookup_insert_eq.
  rewrite (fit_invalid_metric _ _ _ _ _ Hty HL2 HIP Hs). simpl.
  unfold __init__.
  assert (<["embeddings":=VNdarray a]> (<["index_type":=VStr index_type]> base) !! "index"
          = None) as Hix'.
  { by rewrite !lookup_insert_ne. }
  split; [|split; [done|split; [apply lookup_insert_eq|split; [done|]]]].
  - left. unfold unset. simpl. rewrite !lookup_insert_ne by done. auto.
  - intros [[_ [Hu|Hu]]|(ix & a' & Hi & _)]; simpl in *.
    + by rewrite lookup_insert_eq in Hu.
    + by rewrite lookup_insert_eq in Hu.
    + rewrite Hix' in Hi. done.
Qed.

(** C6: on every wrapper whose metric string is neither "L2" nor "IP", [_fit]
    on a matrix raises the configuration error (a [ValueError]); with "L2"
    or "IP" it returns without error and [index] holds the flat index of that
    metric over the rows of the matrix. *)
Theorem fit_metric (w : world R) (index_type : string) (a : ndarray R) (n dim : nat) :
  attrs w !! "index_type" = Some (VStr index_type) →
  shape a = [n; dim] →
  length (data a) = n * dim →
  (index_type ≠ "L2" → index_type ≠ "IP" →
     (_fit (VNdarray a) w).2
     = Raise (ValueError "Invalid index type specified, use indexes as 'IP' or 'L2."))
  ∧ (index_type = "L2" →
       (_fit (VNdarray a) w).2 = Return tt
       ∧ attrs (_fit (VNdarray a) w).1 !! "index"
         = Some (VIndex (mk_IndexFlat METRIC_L2 dim n (data a))))
  ∧ (index_type = "IP" →
       (_fit (VNdarray a) w).2 = Return tt
       ∧ attrs (_fit (VNdarray a) w).1 !! "index"
         = Some (VIndex (mk_IndexFlat METRIC_INNER_PRODUCT dim n (data a)))).
Proof.
  intros Hty Hs Hlen. split; [|split].
  - intros HL2 HIP. by rewrite (fit_invalid_metric _ _ _ _ _ Hty HL2 HIP Hs).
  - intros ->. rewrite (fit_valid w "L2" METRIC_L2 a n dim) by auto. simpl.
    split; [done|]. rewrite lookup_insert_eq. unfold flat_index. by rewrite Hs.
  - intros ->. rewrite (fit_valid w "IP" METRIC_INNER_PRODUCT a n dim) by auto. simpl.
    split; [done|]. rewrite lookup_insert_eq. unfold flat_index. by rewrite Hs.
Qed.

(** C7 (as amended): [_fit] refuses every argument that is not a numpy
    array with the type error naming its type.  Every array passes that test:
    on an array of numbers no path of [_fit] ends in a [TypeError], and on an
    array of dtype [object] the only [TypeError] possible is the one the
    library raises when it converts the elements, never the wrapper's. *)
Theorem fit_type_check (w : world R) (v : value R) :
  match v with
  | VNdarray a => is_TypeError (_fit v w).2 = false
  | VNdarrayObject s t =>
      (_fit v w).2 ≠ Raise (TypeError ("Embeddings must be an ndarray, got " ++ type_name v))
  | _ =>
      (_fit v w).2 = Raise (TypeError ("Embeddings must be an ndarray, got " ++ type_name v))
  end.
Proof.
  destruct v as [| | |a|s t| | |]; try (by rewrite fit_not_ndarray).
  - apply fit_ndarray_not_TypeError.
  - rewrite (fit_array w (VNdarrayObject s t) (ObjectArray s t)) by done. simpl.
    destruct (s !! 1) as [dim|]; simpl; [|done].
    destruct (attrs w !! "index_type") as [it|]; simpl; [|done].
    destruct (eq_str it "L2" || eq_str it "IP"); simpl; [|done].
    unfold add, unpack_shape. simpl.
    destruct s as [|n [|dim' [|? ?]]]; simpl; try done.
    by case_bool_decide.
Qed.

(** C10: a [_fit] call that raises the type error leaves every attribute of
    the instance as it was: neither [embeddings] nor [index] is assigned.  The
    type error is the one of the type test, so the argument was no array.
    (The one argument left aside is an array of dtype [object]: there the
    [TypeError] is the library's, raised after both assignments.) *)
Theorem fit_TypeError_keeps_state (w : world R) (v : value R) :
  is_TypeError (_fit v w).2 = true →
  (∀ s t, v ≠ VNdarrayObject s t) →
  isinstance_ndarray v = false ∧ attrs (_fit v w).1 = attrs w.
Proof.
  intros Hte Hobj. destruct (isinstance_ndarray v) eqn:Hv.
  - destruct v as [| | |a|s t| | |]; try discriminate.
    + by rewrite fit_ndarray_not_TypeError in Hte.
    + by destruct (Hobj s t).
  - by rewrite fit_not_ndarray.
Qed.

(** C4 (as amended): a wrapper with metric "L2" or "IP" is fitted on [N]
    vectors of dimension [D] and queried with one [D]-vector and
    [1 <= k <= N].  The fit and the query both return; the two arrays
    returned have shape [(1, k)] and hold [k] entries; they are parallel: the
    entry at each rank is the position of a fitted vector and the score of the
    query against that vector (squared distance for "L2", inner product for
    "IP"); no position occurs twice; every fitted vector left out scores no
    better than any result; and along the results the "L2" distances never
    decrease and the "IP" scores never increase. *)
Theorem query_vector_shape_and_order `{!ScalarOrder R} (w : world R)
    (index_type : string) (a q : ndarray R) (N D k : nat) :
  attrs w !! "index_type" = Some (VStr index_type) →
  index_type = "L2" ∨ index_type = "IP" →
  shape a = [N; D] → length (data a) = N * D →
  shape q = [D] → length (data q) = D →
  1 ≤ k → k ≤ N →
  ∃ w1 w2 distances indices,
    _fit (VNdarray a) w = (w1, Return tt)
    ∧ query (VNdarray q) k w1 = (w2, Return (distances, indices))
    ∧ shape distances = [1; k] ∧ shape indices = [1; k]
    ∧ length (data distances) = k ∧ length (data indices) = k
    ∧ (∀ i x, data distances !! i = Some x →
         ∃ j, j < N ∧ data indices !! i = Some (Z.of_nat j)
              ∧ (index_type = "L2" → x = fvec_L2sqr (data q) (row D j (data a)))
              ∧ (index_type = "IP" → x = fvec_inner_product (data q) (row D j (data a))))
    ∧ NoDup (data indices)
    ∧ (∀ j x, j < N → Z.of_nat j ∉ data indices → x ∈ data distances →
         (index_type = "L2" → rleb x (fvec_L2sqr (data q) (row D j (data a))) = true)
         ∧ (index_type = "IP" →
              rleb (fvec_inner_product (data q) (row D j (data a))) x = true))
    ∧ ∀ i j x y, i ≤ j →
        data distances !! i = Some x → data distances !! j = Some y →
        (index_type = "L2" → rleb x y = true)
        ∧ (index_type = "IP" → rleb y x = true).
Proof.
  intros Hty Hm Hs Hlen Hsq Hlq Hk1 Hk.
  set (mt := if bool_decide (index_type = "L2") then METRIC_L2 else METRIC_INNER_PRODUCT).
  assert ((index_type = "L2" ∧ mt = METRIC_L2)
          ∨ (index_type = "IP" ∧ mt = METRIC_INNER_PRODUCT)) as Hmt.
  { subst mt. destruct Hm as [->| ->]; [left|right]; done. }
  set (ix := flat_index mt a).
  assert (d ix = D ∧ ntotal ix = N ∧ metric_type ix = mt ∧ xb ix = data a)
    as (Hd & Hn & Hmetric & Hxb).
  { subst ix. unfold flat_index. rewrite Hs. by simpl. }
  assert ((index_type = "L2" → ∀ u v, score (metric_type ix) u v = fvec_L2sqr u v)
          ∧ (index_type = "IP" → ∀ u v, score (metric_type ix) u v = fvec_inner_product u v))
    as [HscL2 HscIP].
  { rewrite Hmetric. split; intros ->; destruct Hmt as [[? ->]|[? ->]]; done. }
  assert ((index_type = "L2" → ∀ c1 c2 : R * Z,
             better (metric_type ix) c1 c2 → rleb c1.1 c2.1 = true)
          ∧ (index_type = "IP" → ∀ c1 c2 : R * Z,
               better (metric_type ix) c1 c2 → rleb c2.1 c1.1 = true))
    as [HbL2 HbIP].
  { rewrite Hmetric. split; intros ->; destruct Hmt as [[? ->]|[? ->]]; done. }
  eexists _, _, (mk_ndarray [1; k] (fst <$> knn ix k (data q))),
    (mk_ndarray [1; k] (snd <$> knn ix k (data q))).
  split; [by apply (fit_valid w index_type mt a N D)|].
  split.
  { erewrite query_vector; [|apply lookup_insert_eq|done].
    unfold reshape_1_m1, numel. rewrite Hsq. simpl. rewrite Nat.mul_1_r.
    fold ix. rewrite <- Hd at 1. rewrite search_one by lia. done. }
  simpl. rewrite !length_fmap, !knn_length.
  repeat (split; [done|]).
  split; [|split; [|split]].
  - intros i x Hx.
    apply list_lookup_fmap_Some in Hx as (c & -> & Hc).
    destruct (knn_elem ix k (data q) c) as (j & Hj & ->);
      [lia|by eapply list_elem_of_lookup_2|].
    exists j. split; [lia|]. split; [by rewrite list_lookup_fmap, Hc|].
    cbn [fst]. rewrite Hd, Hxb. split; intros Hit; [by apply HscL2|by apply HscIP].
  - apply knn_NoDup. lia.
  - intros j x Hj Hout Hx.
    apply list_elem_of_fmap in Hx as (c & -> & Hc).
    pose proof (knn_best ix k (data q) j c) as Hbest.
    rewrite Hd, Hxb in Hbest.
    split; intros Hit.
    + rewrite <- (HscL2 Hit). apply (HbL2 Hit c (_, Z.of_nat j)). apply Hbest; [lia..|done|done].
    + rewrite <- (HscIP Hit). apply (HbIP Hit c (_, Z.of_nat j)). apply Hbest; [lia..|done|done].
  - intros i j x y Hij Hx Hy.
    apply list_lookup_fmap_Some in Hx as (c1 & -> & Hc1).
    apply list_lookup_fmap_Some in Hy as (c2 & -> & Hc2).
    assert (better (metric_type ix) c1 c2) as Hbetter.
    { eapply (knn_ranked ix k (data q) i j); [lia|done..]. }
    split; intros Hit; [by apply HbL2|by apply HbIP].
Qed.
End claims.

(** ** The claims at concrete inputs *)

#[export] Instance Z_ScalarOrder : ScalarOrder Z.
Proof.
  split; simpl.
  - intros x y. rewrite !Z.leb_le. lia.
  - intros x y z. rewrite !Z.leb_le. lia.
Qed.

Lemma query_before_fit_AttributeError_witness :
  query (VNdarray Examples.vector) 1 (Examples.fresh "L2")
  = (Examples.fresh "L2",
     Raise (AttributeError "'BaseFaissAnn' object has no attribute 'index'"))
  ∧ is_ValueError (query (VNdarray Examples.vector) 1 (Examples.fresh "L2")).2 = false.
Proof.
  apply (query_before_fit_AttributeError (R:=Z) ∅ "L2" [] (VNdarray Examples.vector) 1).
  reflexivity.
Defined.

Lemma query_tensor_TypeError_witness :
  query (VTensor false Examples.vector) 1 (Examples.fit_on_matrix "L2")
  = (Examples.fit_on_matrix "L2", Raise (TypeError "Query embedding must be an ndarray.")).
Proof.
  apply (query_tensor_TypeError (R:=Z) (Examples.fit_on_matrix "L2")
           (VIndex (mk_IndexFlat METRIC_L2 2 3 (data Examples.matrix)))
           false Examples.vector 1).
  - vm_compute. reflexivity.
  - reflexivity.
Defined.

Lemma fit_invalid_metric_breaks_invariant_witness :
  state_invariant (Examples.fresh "COSINE")
  ∧ (_fit (VNdarray Examples.matrix) (Examples.fresh "COSINE")).2
    = Raise (ValueError "Invalid index type specified, use indexes as 'IP' or 'L2.")
  ∧ attrs (_fit (VNdarray Examples.matrix) (Examples.fresh "COSINE")).1 !! "embeddings"
    = Some (VNdarray Examples.matrix)
  ∧ attrs (_fit (VNdarray Examples.matrix) (Examples.fresh "COSINE")).1 !! "index" = None
  ∧ ¬ state_invariant (_fit (VNdarray Examples.matrix) (Examples.fresh "COSINE")).1.
Proof.
  apply (fit_invalid_metric_breaks_invariant (R:=Z) ∅ "COSINE" [] Examples.matrix 3 2).
  - reflexivity.
  - reflexivity.
  - discriminate.
  - discriminate.
  - reflexivity.
Defined.

Lemma fit_metric_witness :
  (_fit (VNdarray Examples.matrix) (Examples.fresh "COSINE")).2
  = Raise (ValueError "Invalid index type specified, use indexes as 'IP' or 'L2.")
  ∧ (_fit (VNdarray Examples.matrix) (Examples.fresh "IP")).2 = Return tt
  ∧ attrs (_fit (VNdarray Examples.matrix) (Examples.fresh "IP")).1 !! "index"
    = Some (VIndex (mk_IndexFlat METRIC_INNER_PRODUCT 2 3 (data Examples.matrix))).
Proof.
  split.
  - apply (fit_metric (R:=Z) (Examples.fresh "COSINE") "COSINE" Examples.matrix 3 2);
      [vm_compute; reflexivity | reflexivity | reflexivity | discriminate | discriminate].
  - apply (fit_metric (R:=Z) (Examples.fresh "IP") "IP" Examples.matrix 3 2);
      [vm_compute; reflexivity | reflexivity | reflexivity | reflexivity].
Defined.

Lemma fit_TypeError_keeps_state_witness :
  isinstance_ndarray (VObject "list" : value Z) = false
  ∧ attrs (_fit (VObject "list") (Examples.fit_on_matrix "L2")).1
    = attrs (Examples.fit_on_matrix "L2").
Proof.
  apply (fit_TypeError_keeps_state (R:=Z) (Examples.fit_on_matrix "L2") (VObject "list")).
  - reflexivity.
  - intros s t. discriminate.
Defined.

(** C7, as stated, fails: a [1 x 1] array of dtype [object] holding [None]
    is a numpy array, and [_fit] on it, with metric "L2", ends in the
    [TypeError] of the conversion inside [index.add], after [embeddings] and
    [index] were assigned. *)
Lemma fit_object_array_TypeError :
  isinstance_ndarray (VNdarrayObject [1; 1] "NoneType" : value Z) = true
  ∧ (_fit (VNdarrayObject [1; 1] "NoneType") (Examples.fresh "L2")).2
    = Raise (TypeError "float() argument must be a string or a real number, not 'NoneType'")
  ∧ attrs (_fit (VNdarrayObject [1; 1] "NoneType") (Examples.fresh "L2")).1 !! "embeddings"
    = Some (VNdarrayObject [1; 1] "NoneType").
Proof. split; [reflexivity|split]; vm_compute; reflexivity. Qed.

(** C4, as stated, fails at [k = 0 <= N]: the search asserts [k > 0], and
    [query] passes [n_neighbors] on unchecked. *)
Lemma query_zero_neighbors_AssertionError :
  (query (VNdarray Examples.vector) 0 (Examples.fit_on_matrix "L2")).2
  = Raise (AssertionError "").
Proof. vm_compute. reflexivity. Qed.

Lemma query_vector_shape_and_order_witness :
  ∃ w1 w2 distances indices,
    _fit (VNdarray Examples.matrix) (Examples.fresh "L2") = (w1, Return tt)
    ∧ query (VNdarray Examples.vector) 2 w1 = (w2, Return (distances, indices))
    ∧ shape distances = [1; 2] ∧ shape indices = [1; 2]
    ∧ length (data distances) = 2 ∧ length (data indices) = 2
    ∧ (∀ i x, data distances !! i = Some x →
         ∃ j, j < 3 ∧ data indices !! i = Some (Z.of_nat j)
              ∧ ("L2" = "L2" →
                   x = fvec_L2sqr (data Examples.vector) (row 2 j (data Examples.matrix)))
              ∧ ("L2" = "IP" →
                   x = fvec_inner_product (data Examples.vector)
                         (row 2 j (data Examples.matrix))))
    ∧ NoDup (data indices)
    ∧ (∀ j x, j < 3 → Z.of_nat j ∉ data indices → x ∈ data distances →
         ("L2" = "L2" →
            rleb x (fvec_L2sqr (data Examples.vector) (row 2 j (data Examples.matrix)))
            = true)
         ∧ ("L2" = "IP" →
              rleb (fvec_inner_product (data Examples.vector)
                      (row 2 j (data Examples.matrix))) x = true))
    ∧ ∀ i j x y, i ≤ j →
        data distances !! i = Some x → data distances !! j = Some y →
        ("L2" = "L2" → rleb x y = true) ∧ ("L2" = "IP" → rleb y x = true).
Proof.
  apply (query_vector_shape_and_order (R:=Z) (Examples.fresh "L2") "L2"
           Examples.matrix Examples.vector 3 2 2).
  - vm_compute. reflexivity.
  - left. reflexivity.
  - reflexivity.
  - reflexivity.
  - reflexivity.
  - reflexivity.
  - lia.
  - lia.
Defined.
End FaissAnnSpec.


(** * Properties of [BasePooling] *)

Module PoolingSpec.
Import BasePooling.

Section arrays.
Context {A : Type}.

Lemma row_length (dim i : nat) (xs : list A) :
  S i * dim ≤ length xs → length (row dim i xs) = dim.
Proof. intros Hlen. unfold row. rewrite length_take, length_drop. lia. Qed.

Lemma rows_length (n dim : nat) (xs : list A) : length (rows n dim xs) = n.
Proof. unfold rows. by rewrite length_fmap, length_seq. Qed.

Lemma rows_width (n dim : nat) (xs : list A) :
  length xs = n * dim → Forall (λ r, length r = dim) (rows n dim xs).
Proof.
  intros Hlen. unfold rows. rewrite Forall_fmap, Forall_forall.
  intros i Hi. apply elem_of_seq in Hi. simpl. apply row_length. nia.
Qed.
End arrays.

Section reducers.
Context {R : Type} `{Scalar R}.

Lemma token_rows_batch (t dim : nat) (te : ndarray R) (mask : ndarray bool) :
  batch t dim te mask → func.token_rows te = Return (dim, rows t dim (data te)).
Proof.
  intros (Hs & Hlen & _). unfold func.token_rows. rewrite Hs.
  by rewrite bool_decide_eq_true_2.
Qed.

Lemma token_mask_batch (t dim : nat) (te : ndarray R) (mask : ndarray bool) :
  batch t dim te mask → func.token_mask t mask = Return (data mask).
Proof.
  intros (_ & _ & _ & Hnd & Hn & Hlen). unfold func.token_mask.
  by rewrite bool_decide_eq_true_2.
Qed.

Lemma vsum_length (dim : nat) (xs : list (list R)) :
  Forall (λ r, length r = dim) xs → length (func.vsum dim xs) = dim.
Proof.
  unfold func.vsum. induction 1 as [|r xs Hr _ IH]; simpl.
  - apply length_replicate.
  - unfold func.vadd at 1. rewrite length_zip_with. lia.
Qed.

Lemma vmax_length (dim : nat) (rest : list (list R)) (r : list R) :
  length r = dim → Forall (λ r, length r = dim) rest →
  length (foldl (zip_with rmax) r rest) = dim.
Proof.
  intros Hr Hrest. revert r Hr. induction Hrest as [|r' rest Hr' _ IH]; intros r Hr; simpl.
  - done.
  - apply IH. rewrite length_zip_with. lia.
Qed.

Lemma valid_rows_width (dim pos : nat) (flags : list bool) (rs : list (list R)) :
  Forall (λ r, length r = dim) rs →
  Forall (λ p, length p.2 = dim) (func.valid_rows_from pos flags rs).
Proof.
  intros Hrs. revert pos flags.
  induction Hrs as [|r rs Hr _ IH]; intros pos [|valid flags]; simpl; try by constructor.
  apply Forall_app. split; [|apply IH].
  destruct valid; by repeat constructor.
Qed.

Lemma cls_batch (t dim : nat) (te : ndarray R) (mask : ndarray bool) :
  batch t dim te mask →
  ∃ v, func.cls te = Return v ∧ shape v = [dim] ∧ length (data v) = dim.
Proof.
  intros Hb. unfold func.cls. rewrite (token_rows_batch _ _ _ _ Hb).
  destruct Hb as (_ & Hlen & Ht & _). destruct t as [|t]; [lia|].
  unfold rows. simpl. eexists. split; [done|]. split; [done|]. simpl.
  apply row_length. lia.
Qed.

Lemma max_over_batch (t dim : nat) (te : ndarray R) (mask : ndarray bool) :
  batch t dim te mask →
  ∃ v, func.max_over te mask = Return v ∧ shape v = [dim] ∧ length (data v) = dim.
Proof.
  intros Hb. unfold func.max_over. rewrite (token_rows_batch _ _ _ _ Hb).
  rewrite rows_length, (token_mask_batch _ _ _ _ Hb).
  pose proof Hb as (_ & Hlen & Ht & _ & _ & Hm).
  assert (Forall (λ r, length r = dim)
            (zip_with (λ (valid : bool) r,
                         if valid then r else replicate dim (rsub rzero rhuge))
                      (data mask) (rows t dim (data te)))) as Hw.
  { pose proof (rows_width t dim (data te) Hlen) as Hrs.
    generalize (data mask). induction Hrs as [|r rs Hr _ IH]; intros [|valid flags];
      simpl; try by constructor.
    constructor; [|apply IH]. destruct valid; [done|apply length_replicate]. }
  assert (length (zip_with (λ (valid : bool) r,
                         if valid then r else replicate dim (rsub rzero rhuge))
                      (data mask) (rows t dim (data te))) = t) as Hl.
  { rewrite length_zip_with, rows_length. lia. }
  destruct (zip_with _ _ _) as [|r rest]; simpl in Hl; [lia|].
  apply Forall_cons in Hw as [Hr Hrest].
  eexists. split; [done|]. split; [done|]. simpl. by apply vmax_length.
Qed.

Lemma mean_with_batch (weight : nat → R) (divisor : list nat → R)
    (t dim : nat) (te : ndarray R) (mask : ndarray bool) :
  batch t dim te mask →
  ∃ v, func.mean_with weight divisor te mask = Return v
       ∧ shape v = [dim] ∧ length (data v) = dim.
Proof.
  intros Hb. unfold func.mean_with. rewrite (token_rows_batch _ _ _ _ Hb).
  rewrite rows_length, (token_mask_batch _ _ _ _ Hb).
  destruct Hb as (_ & Hlen & _).
  eexists. split; [done|]. split; [done|]. simpl.
  unfold func.vdiv. rewrite length_fmap. apply vsum_length.
  rewrite Forall_fmap. unfold func.valid_rows.
  eapply Forall_impl; [apply valid_rows_width, rows_width, Hlen|].
  intros [pos r] Hr. simpl in *. unfold func.vscale. by rewrite length_fmap.
Qed.

Lemma reducers_batch (t dim : nat) (te : ndarray R) (mask : ndarray bool) :
  batch t dim te mask →
  Forall (λ g, ∃ v, g te mask = Return v ∧ shape v = [dim] ∧ length (data v) = dim)
         (reducers.*2).
Proof.
  intros Hb. unfold reducers. simpl. repeat constructor.
  - by eapply cls_batch.
  - by eapply max_over_batch.
  - by eapply mean_with_batch.
  - by eapply mean_with_batch.
  - by eapply mean_with_batch.
Qed.
End reducers.

Section calls.
Context {R : Type} `{Scalar R}.

Lemma init_pooling_functions (table : list (string * pooling_func R)) (dim : Z)
    (pooling_modes : gmap string bool) :
  pooling_functions (__init__ table dim pooling_modes) = active pooling_modes table.
Proof.
  unfold __init__, active. simpl.
  enough (∀ acc : list (pooling_func R),
            foldl (λ fs '(mode, func),
                     if default false (pooling_modes !! mode) then (fs ++ [func])%list else fs)
                  acc table
            = (acc ++ (filter (λ p, default false (pooling_modes !! p.1) = true) table).*2)%list)
    as Hacc by apply (Hacc []).
  induction table as [|[mode func] table IH]; intros acc; simpl.
  - by rewrite app_nil_r.
  - rewrite IH, filter_cons. simpl.
    destruct (default false (pooling_modes !! mode)) eqn:Hmode.
    + rewrite decide_True by done. simpl. by rewrite <- app_assoc.
    + by rewrite decide_False by done.
Qed.

Lemma active_Forall2 {A B : Type} (P : A → B → Prop) (pooling_modes : gmap string bool)
    (t1 : list (string * A)) (t2 : list (string * B)) :
  Forall2 (λ p q, p.1 = q.1 ∧ P p.2 q.2) t1 t2 →
  Forall2 P (active pooling_modes t1) (active pooling_modes t2).
Proof.
  unfold active. induction 1 as [|[n1 a] [n2 b] t1 t2 [Hn HP] _ IH]; simpl in *.
  - constructor.
  - subst n2. rewrite !filter_cons. simpl.
    destruct (decide (default false (pooling_modes !! n1) = true)); simpl; [|done].
    by constructor.
Qed.

Lemma Forall_exists_Forall2 {A B : Type} (P : A → B → Prop) (Q : B → Prop) (l : list A) :
  Forall (λ a, ∃ b, P a b ∧ Q b) l →
  ∃ k, Forall2 P l k ∧ Forall Q k.
Proof.
  induction 1 as [|a l (b & HP & HQ) _ (k & Hk & HQk)].
  - exists []. split; constructor.
  - exists (b :: k). split; by constructor.
Qed.

Lemma cls_token_appends (out feats : loc) (h : gmap loc (object R))
    (items : list (ndarray R)) (entries : gmap string (feature R))
    (te : ndarray R) (mask : ndarray bool) (v : ndarray R) :
  h !! out = Some (OList items) → h !! feats = Some (ODict entries) →
  bag te mask entries → func.cls te = Return v →
  func.cls_token out feats h = (<[out := OList (items ++ [v])]> h, Return tt).
Proof.
  intros Hout Hfeats [Hte _] Hv.
  unfold func.cls_token, func.get_tensor, bind, getitem, lift, append, ret.
  by rewrite Hfeats, Hte, Hv, Hout.
Qed.

Lemma masked_appends (reduce : ndarray R → ndarray bool → outcome (ndarray R))
    (out feats : loc) (h : gmap loc (object R))
    (items : list (ndarray R)) (entries : gmap string (feature R))
    (te : ndarray R) (mask : ndarray bool) (v : ndarray R) :
  h !! out = Some (OList items) → h !! feats = Some (ODict entries) →
  bag te mask entries → reduce te mask = Return v →
  func.masked reduce out feats h = (<[out := OList (items ++ [v])]> h, Return tt).
Proof.
  intros Hout Hfeats [Hte Hmask] Hv.
  unfold func.masked, func.get_tensor, func.get_mask, bind, getitem, lift, append, ret.
  rewrite Hfeats, Hte. simpl. rewrite Hfeats, Hmask. simpl.
  by rewrite Hv, Hout.
Qed.

(** Every registered function appends what its reduction returns. *)
Lemma pooling_funcs_reducers (out feats : loc) (entries : gmap string (feature R))
    (te : ndarray R) (mask : ndarray bool) :
  bag te mask entries →
  Forall2 (λ p q, p.1 = q.1 ∧
             ∀ h items v, h !! out = Some (OList items) → h !! feats = Some (ODict entries) →
                          q.2 te mask = Return v →
                          p.2 out feats h = (<[out := OList (items ++ [v])]> h, Return tt))
          func.pooling_funcs reducers.
Proof.
  intros Hbag. unfold func.pooling_funcs, reducers.
  repeat constructor; simpl; intros h items v Hout Hfeats Hv.
  - by eapply cls_token_appends.
  - by eapply masked_appends.
  - by eapply masked_appends.
  - by eapply masked_appends.
  - by eapply masked_appends.
Qed.

Lemma for_each_appends (out feats : loc) (entries : gmap string (feature R))
    (te : ndarray R) (mask : ndarray bool)
    (fs : list (pooling_func R))
    (gs : list (ndarray R → ndarray bool → outcome (ndarray R)))
    (vs : list (ndarray R)) :
  Forall2 (λ f g, ∀ h items v,
             h !! out = Some (OList items) → h !! feats = Some (ODict entries) →
             g te mask = Return v →
             f out feats h = (<[out := OList (items ++ [v])]> h, Return tt)) fs gs →
  Forall2 (λ g v, g te mask = Return v) gs vs →
  ∀ h items, h !! out = Some (OList items) → h !! feats = Some (ODict entries) →
  for_each fs out feats h = (<[out := OList (items ++ vs)]> h, Return tt).
Proof.
  intros Hfs. revert vs. induction Hfs as [|f g fs gs Hf _ IH]; intros vs Hvs h items Hout Hfeats.
  - inv Hvs. simpl. unfold ret. by rewrite app_nil_r, insert_id.
  - inv Hvs. simpl. unfold bind. erewrite Hf by done.
    assert (out ≠ feats) as Hne by (intros ->; congruence).
    erewrite IH; [|done|apply lookup_insert_eq|by rewrite lookup_insert_ne].
    by rewrite insert_insert_eq, <- app_assoc.
Qed.

(** What a registered function does is fixed by the entries of the bag: it
    appends one vector, or raises and leaves the heap alone. *)
Lemma cls_token_stable (out feats : loc) (entries : gmap string (feature R)) :
  ∃ r : outcome (ndarray R), ∀ h items,
    h !! out = Some (OList items) → h !! feats = Some (ODict entries) →
    func.cls_token out feats h
    = match r with
      | Return v => (<[out := OList (items ++ [v])]> h, Return tt)
      | Raise e => (h, Raise e)
      end.
Proof.
  destruct (entries !! "token_embeddings") as [[te|m]|] eqn:Hte.
  - exists (func.cls te). intros h items Hout Hfeats.
    unfold func.cls_token, func.get_tensor, bind, getitem, lift, append, ret.
    rewrite Hfeats, Hte. simpl. destruct (func.cls te); [by rewrite Hout|done].
  - exists (Raise (LibraryError "expected a float tensor")). intros h items Hout Hfeats.
    unfold func.cls_token, func.get_tensor, bind, getitem, raise.
    by rewrite Hfeats, Hte.
  - exists (Raise (KeyError "token_embeddings")). intros h items Hout Hfeats.
    unfold func.cls_token, func.get_tensor, bind, getitem.
    by rewrite Hfeats, Hte.
Qed.

Lemma masked_stable (reduce : ndarray R → ndarray bool → outcome (ndarray R))
    (out feats : loc) (entries : gmap string (feature R)) :
  ∃ r : outcome (ndarray R), ∀ h items,
    h !! out = Some (OList items) → h !! feats = Some (ODict entries) →
    func.masked reduce out feats h
    = match r with
      | Return v => (<[out := OList (items ++ [v])]> h, Return tt)
      | Raise e => (h, Raise e)
      end.
Proof.
  destruct (entries !! "token_embeddings") as [[te|m]|] eqn:Hte;
    [destruct (entries !! "attention_mask") as [[te'|mask]|] eqn:Hmask| |].
  - exists (Raise (LibraryError "expected a mask")). intros h items Hout Hfeats.
    unfold func.masked, func.get_tensor, func.get_mask, bind, getitem, raise, ret.
    rewrite Hfeats, Hte. simpl. by rewrite Hfeats, Hmask.
  - exists (reduce te mask). intros h items Hout Hfeats.
    unfold func.masked, func.get_tensor, func.get_mask, bind, getitem, lift, append, ret.
    rewrite Hfeats, Hte. simpl. rewrite Hfeats, Hmask. simpl.
    destruct (reduce te mask); [by rewrite Hout|done].
  - exists (Raise (KeyError "attention_mask")). intros h items Hout Hfeats.
    unfold func.masked, func.get_tensor, func.get_mask, bind, getitem, raise, ret.
    rewrite Hfeats, Hte. simpl. by rewrite Hfeats, Hmask.
  - exists (Raise (LibraryError "expected a float tensor")). intros h items Hout Hfeats.
    unfold func.masked, func.get_tensor, bind, getitem, raise.
    by rewrite Hfeats, Hte.
  - exists (Raise (KeyError "token_embeddings")). intros h items Hout Hfeats.
    unfold func.masked, func.get_tensor, bind, getitem.
    by rewrite Hfeats, Hte.
Qed.

Lemma pooling_funcs_stable (out feats : loc) (entries : gmap string (feature R)) :
  Forall (λ f : pooling_func R, ∃ r : outcome (ndarray R), ∀ h items,
            h !! out = Some (OList items) → h !! feats = Some (ODict entries) →
            f out feats h
            = match r with
              | Return v => (<[out := OList (items ++ [v])]> h, Return tt)
              | Raise e => (h, Raise e)
              end)
         (func.pooling_funcs.*2).
Proof.
  unfold func.pooling_funcs. simpl.
  repeat constructor; first [apply cls_token_stable | apply masked_stable].
Qed.

Lemma active_Forall {A : Type} (P : A → Prop) (pooling_modes : gmap string bool)
    (table : list (string * A)) :
  Forall P (table.*2) → Forall P (active pooling_modes table).
Proof.
  unfold active. rewrite !Forall_fmap, !Forall_forall.
  intros HP p Hp. apply HP. by apply list_elem_of_filter in Hp as [_ Hp].
Qed.

Lemma for_each_stable (out feats : loc) (entries : gmap string (feature R))
    (fs : list (pooling_func R)) :
  Forall (λ f : pooling_func R, ∃ r : outcome (ndarray R), ∀ h items,
            h !! out = Some (OList items) → h !! feats = Some (ODict entries) →
            f out feats h
            = match r with
              | Return v => (<[out := OList (items ++ [v])]> h, Return tt)
              | Raise e => (h, Raise e)
              end) fs →
  ∃ (vs : list (ndarray R)) (r : outcome unit), ∀ h items,
    h !! out = Some (OList items) → h !! feats = Some (ODict entries) →
    for_each fs out feats h = (<[out := OList (items ++ vs)]> h, r).
Proof.
  induction 1 as [|f fs [[v|e] Hf] _ (vs & r & IH)].
  - exists [], (Return tt). intros h items Hout Hfeats. simpl. unfold ret.
    by rewrite app_nil_r, insert_id.
  - exists (v :: vs), r. intros h items Hout Hfeats. simpl. unfold bind.
    rewrite (Hf h items Hout Hfeats).
    assert (out ≠ feats) as Hne by (intros ->; congruence).
    rewrite (IH _ (items ++ [v])%list);
      [|apply lookup_insert_eq|by rewrite lookup_insert_ne].
    by rewrite insert_insert_eq, <- app_assoc.
  - exists [], (Raise e). intros h items Hout Hfeats. simpl. unfold bind.
    rewrite (Hf h items Hout Hfeats). by rewrite app_nil_r, insert_id.
Qed.

Lemma apply_pooling_stable (pooling_modes : gmap string bool) (cfg : Z)
    (out feats : loc) (entries : gmap string (feature R)) :
  ∃ (vs : list (ndarray R)) (r : outcome loc), ∀ h items,
    h !! out = Some (OList items) → h !! feats = Some (ODict entries) →
    apply_pooling (__init__ func.pooling_funcs cfg pooling_modes) out feats h
    = (<[out := OList (items ++ vs)]> h, r).
Proof.
  destruct (for_each_stable out feats entries (active pooling_modes func.pooling_funcs))
    as (vs & r & Hrun).
  { apply active_Forall, pooling_funcs_stable. }
  exists vs, (match r with Return _ => Return out | Raise e => Raise e end).
  intros h items Hout Hfeats. unfold apply_pooling, bind.
  rewrite init_pooling_functions, (Hrun h items Hout Hfeats).
  by destruct r.
Qed.
End calls.

(** ** The claims on [BasePooling] *)

Section claims.
Context {R : Type} `{Scalar R}.

(** C5 (as amended): [apply_pooling] takes the output list and the feature
    bag (the token batch travels inside the bag).  On a bag holding a batch
    of at least one token of width [dim] and a mask of matching length, the
    call returns the output list, which has received, after its former
    items, one vector for each strategy whose flag is set, in registry order:
    the vector that strategy's reduction computes from the batch and the
    mask, of length [dim], whatever dimension was configured.  The list has
    grown by the number of active strategies. *)
Theorem apply_pooling_appends_per_strategy (pooling_modes : gmap string bool) (cfg : Z)
    (out feats : loc) (h : gmap loc (object R)) (items : list (ndarray R))
    (entries : gmap string (feature R)) (te : ndarray R) (mask : ndarray bool)
    (t dim : nat) :
  h !! out = Some (OList items) → h !! feats = Some (ODict entries) →
  bag te mask entries → batch t dim te mask →
  ∃ vs : list (ndarray R),
    apply_pooling (__init__ func.pooling_funcs cfg pooling_modes) out feats h
    = (<[out := OList (items ++ vs)]> h, Return out)
    ∧ Forall2 (λ g v, g te mask = Return v) (active pooling_modes reducers) vs
    ∧ Forall (λ v, shape v = [dim] ∧ length (data v) = dim) vs
    ∧ length vs
      = length (pooling_functions (__init__ func.pooling_funcs cfg pooling_modes)).
Proof.
  intros Hout Hfeats Hbag Hbatch.
  destruct (Forall_exists_Forall2
              (λ (g : ndarray R → ndarray bool → outcome (ndarray R)) v,
                 g te mask = Return v)
              (λ v, shape v = [dim] ∧ length (data v) = dim)
              (active pooling_modes reducers)) as (vs & Hvs & Hshape).
  { apply active_Forall. by eapply reducers_batch. }
  assert (Forall2 (λ (f : pooling_func R) g, ∀ h items v,
             h !! out = Some (OList items) → h !! feats = Some (ODict entries) →
             g te mask = Return v →
             f out feats h = (<[out := OList (items ++ [v])]> h, Return tt))
            (active pooling_modes func.pooling_funcs) (active pooling_modes reducers))
    as Hfs.
  { apply active_Forall2. eapply Forall2_impl; [by apply pooling_funcs_reducers|].
    intros p q [Hn Hpq]. split; [done|]. exact Hpq. }
  exists vs. split; [|split; [done|split; [done|]]].
  - unfold apply_pooling, bind. rewrite init_pooling_functions.
    by rewrite (for_each_appends _ _ _ _ _ _ _ _ Hfs Hvs h items Hout Hfeats).
  - rewrite init_pooling_functions.
    by rewrite <- (Forall2_length _ _ _ Hvs), (Forall2_length _ _ _ Hfs).
Qed.

(** C8 (as amended): a call of [apply_pooling] on a list and a feature bag
    changes nothing in the heap but the list, to which it appends; the bag,
    and the token batch in it, stay as they were.  The call is not
    idempotent: repeated with the same arguments it appends the same vectors
    once more and ends the same way, so after two calls the list holds its
    former items followed by the pooled vectors twice. *)
Theorem apply_pooling_repeat_appends_again (pooling_modes : gmap string bool) (cfg : Z)
    (out feats : loc) (h : gmap loc (object R)) (items : list (ndarray R))
    (entries : gmap string (feature R)) :
  h !! out = Some (OList items) → h !! feats = Some (ODict entries) →
  ∃ (vs : list (ndarray R)) (r : outcome loc),
    apply_pooling (__init__ func.pooling_funcs cfg pooling_modes) out feats h
    = (<[out := OList (items ++ vs)]> h, r)
    ∧ apply_pooling (__init__ func.pooling_funcs cfg pooling_modes) out feats
        (<[out := OList (items ++ vs)]> h)
      = (<[out := OList (items ++ vs ++ vs)]> h, r)
    ∧ (<[out := OList (items ++ vs)]> h) !! feats = Some (ODict entries)
    ∧ ∀ l, l ≠ out → (<[out := OList (items ++ vs)]> h) !! l = h !! l.
Proof.
  intros Hout Hfeats.
  destruct (apply_pooling_stable pooling_modes cfg out feats entries) as (vs & r & Hrun).
  assert (out ≠ feats) as Hne by (intros ->; congruence).
  exists vs, r. split; [by apply Hrun|]. split; [|split].
  - rewrite (Hrun _ (items ++ vs)%list);
      [|apply lookup_insert_eq|by rewrite lookup_insert_ne].
    by rewrite insert_insert_eq, <- app_assoc.
  - by rewrite lookup_insert_ne.
  - intros l Hl. by rewrite lookup_insert_ne.
Qed.

(** C9: two aggregators built from the same registry with the same flags and
    any two configured dimensions (any integers, zero and negative included:
    the constructor stores the value and checks nothing) behave alike: on the
    same arguments and heap [apply_pooling] ends in the same heap with the
    same outcome. *)
Theorem apply_pooling_ignores_dimension (pooling_funcs : list (string * pooling_func R))
    (pooling_modes : gmap string bool) (d1 d2 : Z)
    (out feats : loc) (h : gmap loc (object R)) :
  word_embedding_dimension (__init__ pooling_funcs d1 pooling_modes) = d1
  ∧ word_embedding_dimension (__init__ pooling_funcs d2 pooling_modes) = d2
  ∧ apply_pooling (__init__ pooling_funcs d1 pooling_modes) out feats h
    = apply_pooling (__init__ pooling_funcs d2 pooling_modes) out feats h.
Proof. repeat split. Qed.
End claims.

(** ** The claims at concrete inputs *)

(** C5, as stated, fails: the method has the two parameters [output_vectors]
    and [features], so a call that also passes the token batch is refused
    with a [TypeError] and appends nothing; and an aggregator configured for
    dimension 768 appends, for a batch of width 2, vectors of length 2. *)
Lemma apply_pooling_third_argument_refused :
  call_apply_pooling Examples.pooling [1; 3; 2]%positive Examples.heap
  = (Examples.heap,
     Raise (TypeError "apply_pooling() takes 3 positional arguments but more were given"))
  ∧ word_embedding_dimension Examples.pooling = 768%Z
  ∧ (apply_pooling Examples.pooling 1%positive 2%positive Examples.heap).1 !! 1%positive
    = Some (OList [mk_ndarray [2] [1; 2]%Z; mk_ndarray [2] [2; 3]%Z]).
Proof. split; [reflexivity|split; [reflexivity|]]. vm_compute. reflexivity. Qed.

Lemma apply_pooling_appends_per_strategy_witness :
  ∃ vs : list (ndarray Z),
    apply_pooling Examples.pooling 1%positive 2%positive Examples.heap
    = (<[1%positive := OList ([] ++ vs)]> Examples.heap, Return 1%positive)
    ∧ Forall2 (λ g v, g Examples.tokens Examples.mask = Return v)
        (active (<["cls_token" := true]> (<["mean_tokens" := true]> ∅)) reducers) vs
    ∧ Forall (λ v, shape v = [2] ∧ length (data v) = 2) vs
    ∧ length vs = length (pooling_functions Examples.pooling).
Proof.
  apply (apply_pooling_appends_per_strategy (R:=Z)
           (<["cls_token" := true]> (<["mean_tokens" := true]> ∅)) 768
           1%positive 2%positive Examples.heap [] Examples.entries
           Examples.tokens Examples.mask 2 2).
  - vm_compute. reflexivity.
  - vm_compute. reflexivity.
  - split; vm_compute; reflexivity.
  - unfold batch. simpl. repeat split; auto.
Defined.

(** C8, as stated, fails: the second of two calls with the same arguments
    appends the pooled vectors again, so two calls do not leave what one call
    leaves. *)
Lemma apply_pooling_not_idempotent :
  (apply_pooling Examples.pooling 1%positive 2%positive Examples.heap).1 !! 1%positive
  = Some (OList [mk_ndarray [2] [1; 2]%Z; mk_ndarray [2] [2; 3]%Z])
  ∧ (apply_pooling Examples.pooling 1%positive 2%positive
       (apply_pooling Examples.pooling 1%positive 2%positive Examples.heap).1).1
      !! 1%positive
    = Some (OList [mk_ndarray [2] [1; 2]%Z; mk_ndarray [2] [2; 3]%Z;
                   mk_ndarray [2] [1; 2]%Z; mk_ndarray [2] [2; 3]%Z])
  ∧ (apply_pooling Examples.pooling 1%positive 2%positive
       (apply_pooling Examples.pooling 1%positive 2%positive Examples.heap).1).1
    ≠ (apply_pooling Examples.pooling 1%positive 2%positive Examples.heap).1.
Proof.
  assert ((apply_pooling Examples.pooling 1%positive 2%positive Examples.heap).1
            !! 1%positive
          = Some (OList [mk_ndarray [2] [1; 2]%Z; mk_ndarray [2] [2; 3]%Z])) as H1
    by (vm_compute; reflexivity).
  assert ((apply_pooling Examples.pooling 1%positive 2%positive
             (apply_pooling Examples.pooling 1%positive 2%positive Examples.heap).1).1
            !! 1%positive
          = Some (OList [mk_ndarray [2] [1; 2]%Z; mk_ndarray [2] [2; 3]%Z;
                         mk_ndarray [2] [1; 2]%Z; mk_ndarray [2] [2; 3]%Z])) as H2
    by (vm_compute; reflexivity).
  split; [done|split; [done|]].
  intros Heq. rewrite Heq, H1 in H2. discriminate.
Qed.

Lemma apply_pooling_repeat_appends_again_witness :
  ∃ (vs : list (ndarray Z)) (r : outcome loc),
    apply_pooling Examples.pooling 1%positive 2%positive Examples.heap
    = (<[1%positive := OList ([] ++ vs)]> Examples.heap, r)
    ∧ apply_pooling Examples.pooling 1%positive 2%positive
        (<[1%positive := OList ([] ++ vs)]> Examples.heap)
      = (<[1%positive := OList ([] ++ vs ++ vs)]> Examples.heap, r)
    ∧ (<[1%positive := OList ([] ++ vs)]> Examples.heap) !! 2%positive
      = Some (ODict Examples.entries)
    ∧ ∀ l, l ≠ 1%positive →
        (<[1%positive := OList ([] ++ vs)]> Examples.heap) !! l = Examples.heap !! l.
Proof.
  apply (apply_pooling_repeat_appends_again (R:=Z)
           (<["cls_token" := true]> (<["mean_tokens" := true]> ∅)) 768
           1%positive 2%positive Examples.heap [] Examples.entries).
  - vm_compute. reflexivity.
  - vm_compute. reflexivity.
Defined.
End PoolingSpec.


(** * Further properties of [BaseFaissAnn] *)

Module FaissAnnExtra.
Import Faiss BaseFaissAnn FaissAnnSpec.

Section fit.
Context {R : Type} `{Scalar R}.

Lemma fit_Return_inv (w : world R) (v : value R) :
  (_fit v w).2 = Return tt →
  ∃ a n dim m mt,
    v = VNdarray a
    ∧ attrs w !! "index_type" = Some (VStr m)
    ∧ ((m = "L2" ∧ mt = METRIC_L2) ∨ (m = "IP" ∧ mt = METRIC_INNER_PRODUCT))
    ∧ shape a = [n; dim].
Proof.
  destruct (isinstance_ndarray v) eqn:Hv; [|by rewrite fit_not_ndarray].
  destruct (isinstance_as_array v Hv) as [x Hx].
  rewrite (fit_array w v x Hx). simpl.
  destruct (array_shape x !! 1) as [dim|] eqn:Hdim; simpl; [|done].
  destruct (attrs w !! "index_type") as [it|] eqn:Hit; simpl; [|done].
  destruct (eq_str it "L2" || eq_str it "IP") eqn:Hvalid; simpl; [|done].
  destruct (add _ x) as [ix'|e] eqn:Hadd; simpl; [intros _|done].
  unfold add, unpack_shape in Hadd.
  destruct (array_shape x) as [|n [|dim' [|? ?]]] eqn:Hs; simpl in *; try done.
  simplify_eq. case_bool_decide; [|done].
  destruct x as [a|s t]; simpl in *; [|done].
  destruct v; simpl in Hx; simplify_eq.
  destruct it as [|m| | | | | |]; simpl in Hvalid; try done.
  exists a, n, dim, m,
    (if bool_decide (m = "L2") then METRIC_L2 else METRIC_INNER_PRODUCT).
  repeat split; auto.
  case_bool_decide; [by left|]. simpl in Hvalid. case_bool_decide; [by right|done].
Qed.

(** X1: [_fit] on an array with fewer than two dimensions stops at
    [embeddings.shape[1]] with an [IndexError], whatever the metric; by then
    [embeddings] has been overwritten with the argument and nothing else was
    assigned. *)
Theorem fit_too_few_dimensions (w : world R) (a : ndarray R) :
  ndim a < 2 →
  _fit (VNdarray a) w
  = (mk_world (<["embeddings" := VNdarray a]> (attrs w))
              (log w ++ [("Start fit BaseFaissAnn", [])]),
     Raise (IndexError "tuple index out of range")).
Proof.
  intros Hnd. rewrite (fit_array w (VNdarray a) (FloatArray a)) by done. simpl.
  by rewrite (lookup_ge_None_2 (shape a) 1) by (unfold ndim in Hnd; lia).
Qed.

(** X2: whatever its argument and however it ends, [_fit] assigns no
    attribute other than [embeddings] and [index]; in particular the metric
    chosen at construction is never changed by fitting. *)
Theorem fit_assigns_only_embeddings_and_index (w : world R) (v : value R) (name : string) :
  name ≠ "embeddings" → name ≠ "index" →
  attrs (_fit v w).1 !! name = attrs w !! name.
Proof.
  intros Hemb Hix.
  destruct (isinstance_ndarray v) eqn:Hv; [|by rewrite fit_not_ndarray].
  destruct (isinstance_as_array v Hv) as [x Hx].
  rewrite (fit_array w v x Hx). simpl.
  destruct (array_shape x !! 1) as [dim|]; simpl; [|by rewrite lookup_insert_ne].
  destruct (attrs w !! "index_type") as [it|]; simpl; [|by rewrite lookup_insert_ne].
  destruct (eq_str it "L2" || eq_str it "IP"); simpl; [|by rewrite lookup_insert_ne].
  destruct (add _ x) as [ix'|e]; simpl; by rewrite !lookup_insert_ne.
Qed.

(** X3: with a metric that is neither "L2" nor "IP", [_fit] raises a
    [ValueError] exactly when its argument is an array with at least two
    dimensions: a non-array is refused with the type error first, and an
    array with fewer dimensions fails on [shape[1]] before the metric is
    looked at.  The library is not reached on any of these paths. *)
Theorem fit_invalid_metric_ValueError_iff (w : world R) (index_type v : value R) :
  attrs w !! "index_type" = Some index_type →
  eq_str index_type "L2" = false → eq_str index_type "IP" = false →
  is_ValueError (_fit v w).2
  = match as_array v with
    | Some x => bool_decide (2 ≤ length (array_shape x))
    | None => false
    end.
Proof.
  intros Hit HL2 HIP.
  destruct (isinstance_ndarray v) eqn:Hv.
  - destruct (isinstance_as_array v Hv) as [x Hx].
    rewrite (fit_array w v x Hx), Hx. simpl.
    destruct (array_shape x !! 1) as [dim|] eqn:Hdim; simpl.
    + rewrite Hit, HL2, HIP. simpl.
      rewrite bool_decide_eq_true_2; [done|]. apply lookup_lt_Some in Hdim. lia.
    + rewrite bool_decide_eq_false_2; [done|]. apply lookup_ge_None in Hdim. lia.
  - rewrite fit_not_ndarray by done. by destruct v.
Qed.

(** X4: whenever [_fit] returns normally, from any state at all, the state
    it leaves satisfies the invariant of the wrapper: [embeddings] is the
    argument and [index] is a flat index over exactly its rows. *)
Theorem fit_return_establishes_invariant (w : world R) (v : value R) :
  (_fit v w).2 = Return tt →
  state_invariant (_fit v w).1
  ∧ attrs (_fit v w).1 !! "embeddings" = Some v.
Proof.
  intros Hret.
  destruct (fit_Return_inv w v Hret) as (a & n & dim & m & mt & -> & Hit & Hmt & Hs).
  rewrite (fit_valid w m mt a n dim Hit Hmt Hs). simpl. split.
  - by eapply fit_valid_invariant.
  - rewrite !lookup_insert_ne by done. apply lookup_insert_eq.
Qed.

End fit.

Section query.
Context {R : Type} `{Scalar R}.

(** X6: [query] is read-only on the instance.  For every state, embedding
    and neighbour count, and however the call ends, no attribute is changed;
    the only effect is at most one log record, emitted just before the
    search. *)
Theorem query_is_read_only (w : world R) (v : value R) (k : nat) :
  attrs (query v k w).1 = attrs w
  ∧ (log (query v k w).1 = log w
     ∨ log (query v k w).1
       = (log w ++ [("Query embedding with number of neighbors: %s",
                     [VInt (Z.of_nat k)])])%list).
Proof.
  destruct (attrs w !! "index") as [index|] eqn:Hix;
    [|rewrite query_index_unbound by done; auto].
  destruct (is_None index) eqn:Hnone.
  { destruct index; try discriminate. rewrite query_index_None by done. auto. }
  destruct (isinstance_ndarray v) eqn:Hv;
    [|rewrite (query_not_ndarray w index v k) by done; auto].
  destruct (isinstance_as_array v Hv) as [x Hx].
  rewrite (query_array w index v x k) by done. auto.
Qed.

(** X7: [query] raises the state error, the [ValueError] "Index not
    initialized, please fit the model before querying.", exactly when the
    attribute [index] holds [None]: an instance on which [index] was never
    assigned gets an [AttributeError] instead, and once [index] holds an
    index that error is never raised. *)
Theorem query_state_error_iff (w : world R) (v : value R) (k : nat) :
  (query v k w).2
  = Raise (ValueError "Index not initialized, please fit the model before querying.")
  ↔ attrs w !! "index" = Some VNone.
Proof.
  split; [|intros Hix; by rewrite query_index_None].
  destruct (attrs w !! "index") as [index|] eqn:Hix;
    [|by rewrite query_index_unbound].
  destruct (is_None index) eqn:Hnone; [by destruct index|].
  destruct (isinstance_ndarray v) eqn:Hv;
    [|by rewrite (query_not_ndarray w index v k)].
  destruct (isinstance_as_array v Hv) as [x Hx].
  rewrite (query_array w index v x k) by done. simpl.
  destruct index; try done.
  unfold search, unpack_shape.
  destruct (array_shape (query_argument x)) as [|n [|dim [|? ?]]]; simpl; try done.
  destruct (ascontiguousarray (query_argument x)) as [a|e] eqn:Hconv; simpl.
  - by repeat case_match.
  - destruct (query_argument x); simpl in Hconv; by simplify_eq.
Qed.

(** X8: on a wrapper whose [index] is set, [query] raises its type error,
    "Query embedding must be an ndarray.", exactly when the embedding is not
    a numpy array: every array goes on to the search. *)
Theorem query_type_error_iff (w : world R) (index v : value R) (k : nat) :
  attrs w !! "index" = Some index →
  is_None index = false →
  (query v k w).2 = Raise (TypeError "Query embedding must be an ndarray.")
  ↔ isinstance_ndarray v = false.
Proof.
  intros Hix Hnone.
  split; [|intros Hv; by rewrite (query_not_ndarray w index v k)].
  destruct (isinstance_ndarray v) eqn:Hv; [|done].
  destruct (isinstance_as_array v Hv) as [x Hx].
  rewrite (query_array w index v x k) by done. simpl.
  destruct index; try done.
  unfold search, unpack_shape.
  destruct (array_shape (query_argument x)) as [|n [|dim [|? ?]]]; simpl; try done.
  destruct (ascontiguousarray (query_argument x)) as [a|e] eqn:Hconv; simpl.
  - by repeat case_match.
  - destruct (query_argument x); simpl in Hconv; by simplify_eq.
Qed.

(** X9: a single vector is answered as the one-row matrix with the same
    elements: in every state, [query] on a 1-D array of [D] elements ends in
    the same state with the same outcome as [query] on the [1 x D] matrix. *)
Theorem query_vector_as_one_row_matrix (w : world R) (q : ndarray R) (D k : nat) :
  shape q = [D] →
  query (VNdarray q) k w = query (VNdarray (mk_ndarray [1; D] (data q))) k w.
Proof.
  intros Hs.
  destruct (attrs w !! "index") as [index|] eqn:Hix;
    [|by rewrite !query_index_unbound].
  destruct (is_None index) eqn:Hnone.
  { destruct index; try discriminate. by rewrite !query_index_None. }
  rewrite (query_array w index (VNdarray q) (FloatArray q) k) by done.
  rewrite (query_array w index (VNdarray (mk_ndarray [1; D] (data q)))
             (FloatArray (mk_ndarray [1; D] (data q))) k) by done.
  unfold query_argument, reshape_1_m1, numel. simpl. rewrite Hs. simpl.
  by rewrite Nat.mul_1_r.
Qed.

(** X15: the outcome of [query] depends on the instance through the
    attribute [index] alone: two states that agree on [index] give the same
    result or the same exception, whatever [embeddings], the metric string
    and the log hold.  A failed fit that only replaced [embeddings] therefore
    does not change what queries answer. *)
Theorem query_reads_index_only (w1 w2 : world R) (v : value R) (k : nat) :
  attrs w1 !! "index" = attrs w2 !! "index" →
  (query v k w1).2 = (query v k w2).2.
Proof.
  intros Hix.
  destruct (attrs w2 !! "index") as [index|] eqn:Hix2;
    [|by rewrite !query_index_unbound].
  destruct (is_None index) eqn:Hnone.
  { destruct index; try discriminate. by rewrite !query_index_None. }
  destruct (isinstance_ndarray v) eqn:Hv;
    [|by rewrite (query_not_ndarray w1 index v k), (query_not_ndarray w2 index v k)].
  destruct (isinstance_as_array v Hv) as [x Hx].
  by rewrite (query_array w1 index v x k), (query_array w2 index v x k).
Qed.
End query.

(** ** The further properties at concrete inputs *)

Lemma fit_too_few_dimensions_witness :
  _fit (VNdarray Examples.vector) (Examples.fit_on_matrix "L2")
  = (mk_world (<["embeddings" := VNdarray Examples.vector]>
                 (attrs (Examples.fit_on_matrix "L2")))
              (log (Examples.fit_on_matrix "L2") ++ [("Start fit BaseFaissAnn", [])]),
     Raise (IndexError "tuple index out of range")).
Proof.
  apply (fit_too_few_dimensions (R:=Z) (Examples.fit_on_matrix "L2") Examples.vector).
  unfold ndim. simpl. lia.
Defined.

Lemma fit_assigns_only_embeddings_and_index_witness :
  attrs (_fit (VNdarray Examples.matrix) (Examples.fresh "COSINE")).1 !! "index_type"
  = attrs (Examples.fresh "COSINE") !! "index_type".
Proof.
  apply (fit_assigns_only_embeddings_and_index (R:=Z) (Examples.fresh "COSINE")
           (VNdarray Examples.matrix) "index_type"); discriminate.
Defined.

Lemma fit_invalid_metric_ValueError_iff_witness :
  is_ValueError (_fit (VNdarray Examples.vector) (Examples.fresh "COSINE")).2
  = bool_decide (2 ≤ length (shape Examples.vector)).
Proof.
  apply (fit_invalid_metric_ValueError_iff (R:=Z) (Examples.fresh "COSINE")
           (VStr "COSINE") (VNdarray Examples.vector)).
  - vm_compute. reflexivity.
  - reflexivity.
  - reflexivity.
Defined.

Lemma fit_return_establishes_invariant_witness :
  state_invariant (_fit (VNdarray Examples.matrix) (Examples.fresh "IP")).1
  ∧ attrs (_fit (VNdarray Examples.matrix) (Examples.fresh "IP")).1 !! "embeddings"
    = Some (VNdarray Examples.matrix).
Proof.
  apply (fit_return_establishes_invariant (R:=Z) (Examples.fresh "IP")
           (VNdarray Examples.matrix)).
  vm_compute. reflexivity.
Defined.


Lemma query_type_error_iff_witness :
  (query (VObject "list") 1 (Examples.fit_on_matrix "L2")).2
  = Raise (TypeError "Query embedding must be an ndarray.")
  ↔ isinstance_ndarray (VObject "list" : value Z) = false.
Proof.
  apply (query_type_error_iff (R:=Z) (Examples.fit_on_matrix "L2")
           (VIndex (mk_IndexFlat METRIC_L2 2 3 (data Examples.matrix)))
           (VObject "list") 1).
  - vm_compute. reflexivity.
  - reflexivity.
Defined.

Lemma query_vector_as_one_row_matrix_witness :
  query (VNdarray Examples.vector) 2 (Examples.fit_on_matrix "L2")
  = query (VNdarray (mk_ndarray [1; 2] (data Examples.vector))) 2
      (Examples.fit_on_matrix "L2").
Proof.
  apply (query_vector_as_one_row_matrix (R:=Z) (Examples.fit_on_matrix "L2")
           Examples.vector 2 2).
  reflexivity.
Defined.

Lemma query_reads_index_only_witness :
  (query (VNdarray Examples.vector) 2
     (_fit (VNdarray Examples.vector) (Examples.fit_on_matrix "L2")).1).2
  = (query (VNdarray Examples.vector) 2 (Examples.fit_on_matrix "L2")).2.
Proof.
  apply (query_reads_index_only (R:=Z)
           (_fit (VNdarray Examples.vector) (Examples.fit_on_matrix "L2")).1
           (Examples.fit_on_matrix "L2") (VNdarray Examples.vector) 2).
  vm_compute. reflexivity.
Defined.
End FaissAnnExtra.


(** * Further properties of [BasePooling] *)

Module PoolingExtra.
Import BasePooling PoolingSpec.

Section selection.
Context {R : Type} `{Scalar R}.

Lemma for_each_app (fs1 fs2 : list (pooling_func R)) (out feats : loc)
    (h : gmap loc (object R)) :
  for_each (fs1 ++ fs2) out feats h
  = match for_each fs1 out feats h with
    | (h1, Return _) => for_each fs2 out feats h1
    | (h1, Raise e) => (h1, Raise e)
    end.
Proof.
  revert h. induction fs1 as [|f fs1 IH]; intros h; simpl; [done|].
  unfold bind. destruct (f out feats h) as [h' [[]|e]]; [apply IH|done].
Qed.

(** X10: the constructor selects without reordering: the functions of an
    instance are a sub-sequence of the registry's functions, in registry
    order, whatever the keyword arguments and the order they were given in. *)
Theorem init_selects_in_registry_order (pooling_funcs : list (string * pooling_func R))
    (dim : Z) (pooling_modes : gmap string bool) :
  pooling_functions (__init__ pooling_funcs dim pooling_modes)
    `sublist_of` pooling_funcs.*2.
Proof.
  rewrite init_pooling_functions. unfold active.
  apply fmap_sublist, sublist_filter.
Qed.

(** X11: only the flags of registered modes count.  Two sets of keyword
    arguments that agree on every registered mode, a missing flag counting as
    [False], select the same functions: a flag for an unregistered name is
    ignored, and passing [False] is the same as passing nothing. *)
Theorem init_reads_registered_flags_only (pooling_funcs : list (string * pooling_func R))
    (d1 d2 : Z) (modes1 modes2 : gmap string bool) :
  Forall (λ p, default false (modes1 !! p.1) = default false (modes2 !! p.1))
         pooling_funcs →
  pooling_functions (__init__ pooling_funcs d1 modes1)
  = pooling_functions (__init__ pooling_funcs d2 modes2).
Proof.
  intros Hagree. rewrite !init_pooling_functions. unfold active. f_equal.
  induction Hagree as [|p table Hp _ IH]; [done|].
  rewrite !filter_cons, IH, Hp. by repeat case_decide.
Qed.

(** X12: with no registered mode switched on, [apply_pooling] calls nothing:
    it returns the reference it was given and leaves the heap as it was,
    whatever the two references point to. *)
Theorem apply_pooling_nothing_selected (pooling_funcs : list (string * pooling_func R))
    (dim : Z) (pooling_modes : gmap string bool) (out feats : loc)
    (h : gmap loc (object R)) :
  Forall (λ p, default false (pooling_modes !! p.1) = false) pooling_funcs →
  apply_pooling (__init__ pooling_funcs dim pooling_modes) out feats h
  = (h, Return out).
Proof.
  intros Hoff. unfold apply_pooling. rewrite init_pooling_functions.
  replace (active pooling_modes pooling_funcs) with (@nil (pooling_func R)); [done|].
  unfold active. induction Hoff as [|p table Hp _ IH]; [done|].
  rewrite filter_cons, Hp. by rewrite decide_False by done.
Qed.

(** X13: the functions run in registry order, each on the heap the previous
    one left, and the first exception ends the call.  For a registry made of
    two parts, [apply_pooling] is [apply_pooling] over the first part and, if
    that returned, [apply_pooling] over the second part on the heap reached;
    if the first part raised, its exception and heap are the result. *)
Theorem apply_pooling_registry_app (t1 t2 : list (string * pooling_func R))
    (dim : Z) (pooling_modes : gmap string bool) (out feats : loc)
    (h : gmap loc (object R)) :
  apply_pooling (__init__ (t1 ++ t2) dim pooling_modes) out feats h
  = match apply_pooling (__init__ t1 dim pooling_modes) out feats h with
    | (h1, Return _) => apply_pooling (__init__ t2 dim pooling_modes) out feats h1
    | (h1, Raise e) => (h1, Raise e)
    end.
Proof.
  unfold apply_pooling, bind. rewrite !init_pooling_functions.
  unfold active. rewrite filter_app, fmap_app, for_each_app.
  by destruct (for_each _ out feats h) as [h1 [[]|e]].
Qed.

(** X14: [apply_pooling] writes nothing of its own.  A heap location that no
    function of the instance changes, from any heap, holds after the call what
    it held before, whether the call returns or raises. *)
Theorem apply_pooling_frame (self : BasePooling R) (out feats l : loc)
    (h : gmap loc (object R)) :
  Forall (λ f : pooling_func R, ∀ h0, (f out feats h0).1 !! l = h0 !! l)
         (pooling_functions self) →
  (apply_pooling self out feats h).1 !! l = h !! l.
Proof.
  intros Hfs. unfold apply_pooling, bind.
  enough ((for_each (pooling_functions self) out feats h).1 !! l = h !! l) as Hrun.
  { by destruct (for_each _ out feats h) as [h' [[]|e]]. }
  revert h. induction Hfs as [|f fs Hf _ IH]; intros h; simpl; [done|].
  unfold bind. specialize (Hf h).
  destruct (f out feats h) as [h' [[]|e]]; simpl in *; [|done].
  by rewrite IH.
Qed.
End selection.

(** ** The further properties at concrete inputs *)

Lemma init_reads_registered_flags_only_witness :
  pooling_functions
    (__init__ (R:=Z) func.pooling_funcs 768
       (<["cls_token" := true]> (<["mean_tokens" := false]> (<["median" := true]> ∅))))
  = pooling_functions
      (__init__ (R:=Z) func.pooling_funcs 0 (<["cls_token" := true]> ∅)).
Proof.
  apply (init_reads_registered_flags_only (R:=Z) func.pooling_funcs 768 0).
  unfold func.pooling_funcs. repeat constructor.
Defined.

Lemma apply_pooling_nothing_selected_witness :
  apply_pooling
    (__init__ (R:=Z) func.pooling_funcs 768 (<["pooling_mode_cls_token" := true]> ∅))
    1%positive 2%positive Examples.heap
  = (Examples.heap, Return 1%positive).
Proof.
  apply (apply_pooling_nothing_selected (R:=Z) func.pooling_funcs 768
           (<["pooling_mode_cls_token" := true]> ∅) 1%positive 2%positive Examples.heap).
  unfold func.pooling_funcs. repeat constructor.
Defined.

Lemma apply_pooling_frame_witness :
  (apply_pooling Examples.pooling 1%positive 2%positive Examples.heap).1 !! 2%positive
  = Examples.heap !! 2%positive.
Proof.
  apply (apply_pooling_frame (R:=Z) Examples.pooling 1%positive 2%positive 2%positive
           Examples.heap).
  repeat constructor; intros h0;
    unfold func.cls_token, func.mean_tokens, func.masked, func.get_tensor, func.get_mask,
      bind, getitem, lift, append, ret, raise;
    repeat case_match; simplify_eq; simpl; try done;
    by rewrite lookup_insert_ne.
Defined.
End PoolingExtra.
